(** * Connection: the per-connection registry of metadatas, repositories,
      broadcasters and subscribers (src/connection/Connection.ts)

    The class [Connection] is embedded as a record of its private fields inside
    a small world that also carries what the class shares with the objects it
    creates: the store of subscriber arrays (a broadcaster keeps a reference to
    the array that was current when it was constructed), the allocator of object
    identities, and the log of calls made to the driver and the schema creator.
    Methods are computations in a state-and-exception monad: a [throw] keeps
    the state reached so far, as a JavaScript exception does. *)

From Stdlib Require Import String.
From Stdlib Require Import List Arith Bool Lia.
Import ListNotations.

Set Implicit Arguments.

(** ** Object identities *)

(** An entity class ([entityClass: Function]): compared with [===], so only its
    identity matters. *)
Definition EntityClass := nat.

(** Modelled from the spec: the class [EntityMetadata] (metadata-builder) is
    not part of the sources. An [EntityMetadata] value is the reference to such
    an object, "immutable once registered"; its one field read by the
    connection, [target], is the section variable [target] below. Two
    references are [===] exactly when they are equal. *)
Definition EntityMetadata := nat.

(** Modelled from the spec: [OrmSubscriber] is an "independent observer
    object", opaque to the connection; a value is the reference to it. *)
Definition OrmSubscriber := nat.

(** A location of the store of subscriber arrays. *)
Definition loc := nat.

(** Modelled from the spec: the class [OrmBroadcaster] is not part of the
    sources; its constructor takes "(subscriberSequenceSnapshot,
    targetIdentity)" and the broadcaster "holds a reference (not ownership) to
    the current subscriber list snapshot at creation time, plus the target
    identity". [entityClass] is the field [getBroadcaster] reads; [bc_id] is
    the identity of the object made by [new]. *)
Record OrmBroadcaster := mkBroadcaster {
  bc_id : nat;
  bc_subscribers : loc;
  entityClass : EntityClass
}.

(** Modelled from the spec: the class [Repository] is not part of the sources;
    it is constructed from "(registry, metadata, broadcaster)" and "holds a
    reference to its broadcaster". There is one registry in a world, so the
    first argument is left out. [repo_id] is the identity of the object. *)
Record Repository := mkRepository {
  repo_id : nat;
  repo_metadata : EntityMetadata;
  repo_broadcaster : OrmBroadcaster
}.

(** [interface RepositoryAndMetadata]. *)
Record RepositoryAndMetadata := mkRepoMeta {
  repository : Repository;
  metadata : EntityMetadata
}.

(** Modelled from the spec: [ConnectionOptions] is not part of the sources;
    "connection options include at least { autoSchemaCreate: bool }" plus
    driver fields opaque here. [None] is the omitted property. *)
Record ConnectionOptions := mkOptions {
  autoSchemaCreate : option bool;
  driverOptions : nat
}.

(** ** Errors and external outcomes *)

Inductive Error :=
| MetadataNotFoundError (entityClass : EntityClass)
| RepositoryNotFoundError (entityClass : EntityClass)
| BroadcasterNotFoundError (entityClass : EntityClass)
| ExternalError (reason : nat).

(** How a promise of an external collaborator (driver, schema creator)
    settles. *)
Inductive Settled :=
| Resolved
| Rejected (reason : nat).

(** Calls the connection makes to its collaborators, oldest first in the
    log. *)
Inductive Event :=
| SchemaCreatorConstructed
| DriverConnectCalled (options : ConnectionOptions)
| DriverSessionEstablished
| SchemaCreateCalled
| DriverDisconnectCalled.

Definition Event_eq_dec (a b : Event) : {a = b} + {a <> b}.
Proof. repeat decide equality. Defined.

(** ** State *)

(** The private fields of [class Connection]. [_subscribers] is the reference
    to the current subscriber array; the other arrays are held by nobody but
    the connection and are kept as values. *)
Record Connection := mkConnection {
  _name : String.string;
  _metadatas : list EntityMetadata;
  _subscribers : loc;
  _broadcasters : list OrmBroadcaster;
  repositoryAndMetadatas : list RepositoryAndMetadata;
  _options : option ConnectionOptions
}.

Record World := mkWorld {
  this : Connection;
  arrays : list (list OrmSubscriber);
  next_id : nat;
  events : list Event
}.

Definition set_metadatas (v : list EntityMetadata) (c : Connection) :=
  mkConnection (_name c) v (_subscribers c) (_broadcasters c)
               (repositoryAndMetadatas c) (_options c).
Definition set_subscribers (v : loc) (c : Connection) :=
  mkConnection (_name c) (_metadatas c) v (_broadcasters c)
               (repositoryAndMetadatas c) (_options c).
Definition set_broadcasters (v : list OrmBroadcaster) (c : Connection) :=
  mkConnection (_name c) (_metadatas c) (_subscribers c) v
               (repositoryAndMetadatas c) (_options c).
Definition set_repositoryAndMetadatas (v : list RepositoryAndMetadata)
    (c : Connection) :=
  mkConnection (_name c) (_metadatas c) (_subscribers c) (_broadcasters c)
               v (_options c).
Definition set_options (v : ConnectionOptions) (c : Connection) :=
  mkConnection (_name c) (_metadatas c) (_subscribers c) (_broadcasters c)
               (repositoryAndMetadatas c) (Some v).

(** ** The monad *)

Inductive Result (A : Type) :=
| Ok (a : A)
| Throw (e : Error).
Arguments Throw {A} e.

Definition M (A : Type) := World -> Result A * World.

Definition ret {A} (a : A) : M A := fun w => (Ok a, w).
Definition throw {A} (e : Error) : M A := fun w => (Throw e, w).
Definition bind {A B} (m : M A) (k : A -> M B) : M B :=
  fun w => match m w with
           | (Ok a, w') => k a w'
           | (Throw e, w') => (Throw e, w')
           end.

Notation "x <- m ;; k" := (bind m (fun x => k))
  (at level 61, m at next level, right associativity).
Notation "m ;; k" := (bind m (fun _ => k))
  (at level 61, right associativity).

(** Read a field of [this]. *)
Definition field {A} (f : Connection -> A) : M A :=
  fun w => (Ok (f (this w)), w).
(** Assign a field of [this]. *)
Definition assign (f : Connection -> Connection) : M unit :=
  fun w => (Ok tt, mkWorld (f (this w)) (arrays w) (next_id w) (events w)).
(** [new] of an object: a fresh identity. *)
Definition new_object : M nat :=
  fun w => (Ok (next_id w),
            mkWorld (this w) (arrays w) (S (next_id w)) (events w)).
(** A new array with the given elements; its location is returned. *)
Definition new_array (elts : list OrmSubscriber) : M loc :=
  fun w => (Ok (length (arrays w)),
            mkWorld (this w) (arrays w ++ [elts]) (next_id w) (events w)).
(** The elements of an array (a location that was never allocated cannot be
    held by a JavaScript value; it reads as empty here). *)
Definition elements (w : World) (l : loc) : list OrmSubscriber :=
  nth l (arrays w) [].
Definition read_array (l : loc) : M (list OrmSubscriber) :=
  fun w => (Ok (elements w l), w).
(** A call to a collaborator. *)
Definition emit (e : Event) : M unit :=
  fun w => (Ok tt, mkWorld (this w) (arrays w) (next_id w) (events w ++ [e])).
(** Awaiting a promise of a collaborator. *)
Definition await (s : Settled) : M unit :=
  match s with
  | Resolved => ret tt
  | Rejected r => throw (ExternalError r)
  end.

(** [Array.prototype.map] with a callback that has effects: the callback runs
    on each element in order. *)
Fixpoint mapM {A B} (f : A -> M B) (l : list A) : M (list B) :=
  match l with
  | [] => ret []
  | x :: l' => y <- f x ;; ys <- mapM f l' ;; ret (y :: ys)
  end.

(** ** Sample entities, used by the examples at the end *)

Definition User : EntityClass := 1.
Definition Post : EntityClass := 2.
(** Two metadata objects that both describe [User], and one for [Post]. *)
Definition userMetadata : EntityMetadata := 10.
Definition userMetadata' : EntityMetadata := 11.
Definition postMetadata : EntityMetadata := 20.
Definition sample_target (m : EntityMetadata) : EntityClass :=
  if m =? postMetadata then Post else User.
Definition S1 : OrmSubscriber := 101.
Definition S2 : OrmSubscriber := 102.
Definition S3 : OrmSubscriber := 103.
Definition default : String.string := "default"%string.

Section Registry.

(** [metadata.target]: the entity class a metadata object describes. *)
Variable target : EntityMetadata -> EntityClass.

(** ** Constructor *)

(** [new Connection(name, driver)]: every array field starts as a fresh empty
    array; the subscriber array is the first location of the store. *)
Definition new_Connection (name : String.string) : World :=
  mkWorld (mkConnection name [] 0 [] [] None) [[]] 0 [].

(** ** Resolution *)

(** [getMetadata(entityClass)], lines 153-159. *)
Definition getMetadata (entityClass : EntityClass) : M EntityMetadata :=
  metadatas <- field _metadatas ;;
  match find (fun metadata => target metadata =? entityClass) metadatas with
  | None => throw (MetadataNotFoundError entityClass)
  | Some metadata => ret metadata
  end.

(** [getRepository(entityClass)], lines 141-148. *)
Definition getRepository (entityClass : EntityClass) : M Repository :=
  metadata0 <- getMetadata entityClass ;;
  repoMetas <- field repositoryAndMetadatas ;;
  match find (fun repoMeta => metadata repoMeta =? metadata0) repoMetas with
  | None => throw (RepositoryNotFoundError entityClass)
  | Some repoMeta => ret (repository repoMeta)
  end.

(** [getBroadcaster(entityClass)], lines 164-170. *)
Definition getBroadcaster (entityClass0 : EntityClass) : M OrmBroadcaster :=
  broadcasters <- field _broadcasters ;;
  match find (fun broadcaster => entityClass broadcaster =? entityClass0)
             broadcasters with
  | None => throw (BroadcasterNotFoundError entityClass0)
  | Some broadcaster => ret broadcaster
  end.

(** ** Private methods *)

(** [createBroadcasterForMetadata(metadata)], lines 176-178. *)
Definition createBroadcasterForMetadata (metadata0 : EntityMetadata)
    : M OrmBroadcaster :=
  subscribers <- field _subscribers ;;
  id <- new_object ;;
  ret (mkBroadcaster id subscribers (target metadata0)).

(** [createRepoMeta(metadata)], lines 180-185: the broadcaster is looked up by
    the metadata's target before the repository is constructed. *)
Definition createRepoMeta (metadata0 : EntityMetadata)
    : M RepositoryAndMetadata :=
  broadcaster <- getBroadcaster (target metadata0) ;;
  id <- new_object ;;
  ret (mkRepoMeta (mkRepository id metadata0 broadcaster) metadata0).

(** ** Registration *)

(** [addMetadatas(metadatas)], lines 125-129. In each assignment the receiver
    of [concat] is read before its argument is evaluated. *)
Definition addMetadatas (metadatas : list EntityMetadata) : M unit :=
  old_metadatas <- field _metadatas ;;
  assign (set_metadatas (old_metadatas ++ metadatas)) ;;
  old_broadcasters <- field _broadcasters ;;
  new_broadcasters <- mapM createBroadcasterForMetadata metadatas ;;
  assign (set_broadcasters (old_broadcasters ++ new_broadcasters)) ;;
  old_repoMetas <- field repositoryAndMetadatas ;;
  new_repoMetas <- mapM createRepoMeta metadatas ;;
  assign (set_repositoryAndMetadatas (old_repoMetas ++ new_repoMetas)).

(** [addSubscribers(subscribers)], lines 134-136: [concat] makes a new array
    and the field is pointed at it; the old array is left as it was. *)
Definition addSubscribers (subscribers : list OrmSubscriber) : M unit :=
  old <- field _subscribers ;;
  old_elements <- read_array old ;;
  fresh <- new_array (old_elements ++ subscribers) ;;
  assign (set_subscribers fresh).

(** ** Lifecycle *)

(** [options.autoSchemaCreate === true]. *)
Definition autoSchemaCreate_is_true (options : ConnectionOptions) : bool :=
  match autoSchemaCreate options with
  | Some true => true
  | _ => false
  end.

(** [connect(options)], lines 104-113. [driver_connect] and [schema_create]
    say how the promises of [driver.connect] and of [schemaCreator.create]
    settle; the callback of [then] runs only when the first one resolves. A
    rejected promise is a [Throw]. *)
Definition connect (options : ConnectionOptions)
    (driver_connect schema_create : Settled) : M unit :=
  emit SchemaCreatorConstructed ;;
  assign (set_options options) ;;
  emit (DriverConnectCalled options) ;;
  await driver_connect ;;
  emit DriverSessionEstablished ;;
  if autoSchemaCreate_is_true options
  then emit SchemaCreateCalled ;; await schema_create
  else ret tt.

(** [close()], lines 118-120. *)
Definition close (driver_disconnect : Settled) : M unit :=
  emit DriverDisconnectCalled ;;
  await driver_disconnect.

(** ** Getters *)

(** [get repositories()], lines 86-88. *)
Definition repositories (c : Connection) : list Repository :=
  map repository (repositoryAndMetadatas c).

(** The subscriber view of a broadcaster: the elements of the array it
    references. *)
Definition subscribers_of (w : World) (b : OrmBroadcaster)
    : list OrmSubscriber :=
  elements w (bc_subscribers b).

(** ** Public operations and reachable states *)

Inductive Op :=
| OpConnect (options : ConnectionOptions) (driver_connect schema_create : Settled)
| OpClose (driver_disconnect : Settled)
| OpAddMetadatas (metadatas : list EntityMetadata)
| OpAddSubscribers (subscribers : list OrmSubscriber)
| OpGetMetadata (entityClass : EntityClass)
| OpGetRepository (entityClass : EntityClass)
| OpGetBroadcaster (entityClass : EntityClass).

(** The state a call leaves behind, whether it returned or threw. *)
Definition step (w : World) (op : Op) : World :=
  match op with
  | OpConnect o d s => snd (connect o d s w)
  | OpClose d => snd (close d w)
  | OpAddMetadatas ms => snd (addMetadatas ms w)
  | OpAddSubscribers ss => snd (addSubscribers ss w)
  | OpGetMetadata e => snd (getMetadata e w)
  | OpGetRepository e => snd (getRepository e w)
  | OpGetBroadcaster e => snd (getBroadcaster e w)
  end.

Definition run (ops : list Op) (w : World) : World := fold_left step ops w.

(** The state after construction and a sequence of public operations. *)
Definition after (name : String.string) (ops : list Op) : World :=
  run ops (new_Connection name).


(** ** Auxiliary notions used by the statements *)

(** [x] is the first element of [l], in order, that satisfies [P]. *)
Definition first_match {A} (P : A -> bool) (l : list A) (x : A) : Prop :=
  exists i, nth_error l i = Some x /\ P x = true /\
            forall j y, j < i -> nth_error l j = Some y -> P y = false.

(** The broadcasters [map] makes for a batch: consecutive identities, all
    referencing the subscriber array current at the call. *)
Fixpoint fresh_broadcasters (id : nat) (subs : loc) (ms : list EntityMetadata)
    : list OrmBroadcaster :=
  match ms with
  | [] => []
  | m :: ms' => mkBroadcaster id subs (target m) :: fresh_broadcasters (S id) subs ms'
  end.

Definition bump (k : nat) (w : World) : World :=
  mkWorld (this w) (arrays w) (next_id w + k) (events w).

(** A pair made by [createRepoMeta] for [m] when the broadcasters are [bs]. *)
Definition bound_to (bs : list OrmBroadcaster) (m : EntityMetadata)
    (rm : RepositoryAndMetadata) : Prop :=
  metadata rm = m /\ repo_metadata (repository rm) = m /\
  find (fun b => entityClass b =? target m) bs =
  Some (repo_broadcaster (repository rm)).

(** The state [addMetadatas] leaves: the three sequences extended in place. *)
Definition registered_state (w : World) (ms : list EntityMetadata)
    (rms : list RepositoryAndMetadata) : World :=
  mkWorld
    (mkConnection (_name (this w))
       (_metadatas (this w) ++ ms)
       (_subscribers (this w))
       (_broadcasters (this w) ++
          fresh_broadcasters (next_id w) (_subscribers (this w)) ms)
       (repositoryAndMetadatas (this w) ++ rms)
       (_options (this w)))
    (arrays w) (next_id w + length ms + length ms) (events w).

(** The metadatas passed to [addMetadatas] by a sequence of operations, and
    the subscribers passed to [addSubscribers], each in call order. *)
Definition registered_by (op : Op) : list EntityMetadata :=
  match op with OpAddMetadatas ms => ms | _ => [] end.
Definition registered (ops : list Op) : list EntityMetadata :=
  flat_map registered_by ops.
Definition subscribed_by (op : Op) : list OrmSubscriber :=
  match op with OpAddSubscribers ss => ss | _ => [] end.
Definition subscribed (ops : list Op) : list OrmSubscriber :=
  flat_map subscribed_by ops.

(** The current subscriber sequence ([get subscribers()]). *)
Definition subscribers (w : World) : list OrmSubscriber :=
  elements w (_subscribers (this w)).

(** The invariant of the registry: the three sequences mirror each other,
    every repository is bound to the first broadcaster of its metadata's
    target, references into the array store are allocated, and identities of
    broadcasters are distinct and below the allocator. *)
Record consistent (w : World) : Prop := mkConsistent {
  pairs_mirror :
    map metadata (repositoryAndMetadatas (this w)) = _metadatas (this w);
  classes_mirror :
    map entityClass (_broadcasters (this w)) = map target (_metadatas (this w));
  pairs_bound :
    Forall (fun rm => bound_to (_broadcasters (this w)) (metadata rm) rm)
           (repositoryAndMetadatas (this w));
  subs_valid : _subscribers (this w) < length (arrays w);
  views_valid :
    Forall (fun b => bc_subscribers b < length (arrays w))
           (_broadcasters (this w));
  bc_ids_below :
    Forall (fun b => bc_id b < next_id w) (_broadcasters (this w));
  bc_ids_nodup : NoDup (map bc_id (_broadcasters (this w)))
}.

(** ** Notions used by the further properties *)

(** [l1] is an initial segment of [l2]. *)
Definition is_prefix {A} (l1 l2 : list A) : Prop :=
  exists rest, l2 = l1 ++ rest.

(** A broadcaster and a pair without the identities of the objects made by
    [new]: what is left is the array a broadcaster references and its class,
    and for a pair its metadata, the metadata of its repository and the
    broadcaster the repository is bound to. *)
Definition erase_broadcaster (b : OrmBroadcaster) : loc * EntityClass :=
  (bc_subscribers b, entityClass b).
Definition erase_pair (rm : RepositoryAndMetadata)
    : EntityMetadata * EntityMetadata * (loc * EntityClass) :=
  (metadata rm, repo_metadata (repository rm),
   erase_broadcaster (repo_broadcaster (repository rm))).

(** The calls to the driver in a log, and the calls to the driver a sequence
    of operations asks for. *)
Definition is_driver_call (e : Event) : bool :=
  match e with
  | DriverConnectCalled _ | DriverDisconnectCalled => true
  | _ => false
  end.
Definition driver_calls_of (op : Op) : list Event :=
  match op with
  | OpConnect o _ _ => [DriverConnectCalled o]
  | OpClose _ => [DriverDisconnectCalled]
  | _ => []
  end.

(** The options of the most recent [connect] among the operations, [start]
    when there is none. *)
Definition latest_options (start : option ConnectionOptions) (ops : list Op)
    : option ConnectionOptions :=
  fold_left (fun acc op => match op with
                           | OpConnect o _ _ => Some o
                           | _ => acc
                           end) ops start.

(** How the promise returned by [connect] settles, from how the promises of
    the driver and of the schema creator settle. *)
Definition settle (s : Settled) : Result unit :=
  match s with
  | Resolved => Ok tt
  | Rejected r => Throw (ExternalError r)
  end.

(** The subscriber views of the broadcasters grow along the broadcaster
    sequence and none is ahead of the current subscriber sequence. *)
Definition views_ordered (w : World) : Prop :=
  (forall b, In b (_broadcasters (this w)) ->
             is_prefix (subscribers_of w b) (subscribers w)) /\
  (forall i j bi bj, i <= j ->
     nth_error (_broadcasters (this w)) i = Some bi ->
     nth_error (_broadcasters (this w)) j = Some bj ->
     is_prefix (subscribers_of w bi) (subscribers_of w bj)).

(** * Properties *)

(** ** First match in a sequence *)

Lemma find_first_match A (P : A -> bool) (l : list A) (x : A) :
  find P l = Some x <-> first_match P l x.
Proof.
  induction l as [|a l IH]; simpl.
  - split; [discriminate|].
    intros (i & Hi & _). destruct i; discriminate.
  - destruct (P a) eqn:Pa.
    + split.
      * intros [= <-]. exists 0. repeat split; auto. intros j y Hj. lia.
      * intros (i & Hi & Px & Hlt). destruct i as [|i]; simpl in Hi.
        -- congruence.
        -- specialize (Hlt 0 a (Nat.lt_0_succ i) eq_refl). congruence.
    + rewrite IH. split.
      * intros (i & Hi & Px & Hlt). exists (S i). repeat split; auto.
        intros [|j] y Hj Hy; simpl in Hy.
        -- congruence.
        -- apply (Hlt j); [lia|assumption].
      * intros (i & Hi & Px & Hlt). destruct i as [|i]; simpl in Hi.
        -- congruence.
        -- exists i. repeat split; auto.
           intros j y Hj Hy. apply (Hlt (S j)); [lia|assumption].
Qed.

Lemma first_match_unique A (P : A -> bool) (l : list A) (x y : A) :
  first_match P l x -> first_match P l y -> x = y.
Proof.
  intros Hx Hy. apply find_first_match in Hx, Hy. congruence.
Qed.

Lemma find_app A (P : A -> bool) (l l' : list A) :
  find P (l ++ l') =
  match find P l with Some x => Some x | None => find P l' end.
Proof.
  induction l as [|a l IH]; simpl; [reflexivity|].
  destruct (P a); [reflexivity|exact IH].
Qed.

Lemma find_none_iff A (P : A -> bool) (l : list A) :
  find P l = None <-> forall x, In x l -> P x = false.
Proof.
  split; [apply find_none|].
  induction l as [|a l IH]; simpl; intros H; [reflexivity|].
  rewrite (H a (or_introl eq_refl)). apply IH. intros x Hx. apply H. now right.
Qed.

Lemma find_exists A (P : A -> bool) (l : list A) (x : A) :
  In x l -> P x = true -> exists y, find P l = Some y.
Proof.
  intros Hin Px. destruct (find P l) as [y|] eqn:E; [now exists y|].
  rewrite (proj1 (find_none_iff P l) E x Hin) in Px. discriminate.
Qed.

(** Looking a class up among broadcasters only reads their [entityClass]. *)
Lemma find_class_none (bs : list OrmBroadcaster) (e : EntityClass) :
  find (fun b => entityClass b =? e) bs = None <->
  ~ In e (map entityClass bs).
Proof.
  rewrite find_none_iff. split.
  - intros H Hin. apply in_map_iff in Hin. destruct Hin as (b & <- & Hb).
    specialize (H b Hb). rewrite Nat.eqb_refl in H. discriminate.
  - intros H b Hb. apply Nat.eqb_neq. intros <-. apply H. now apply in_map.
Qed.

Lemma find_target_none (ms : list EntityMetadata) (e : EntityClass) :
  find (fun m => target m =? e) ms = None <-> ~ In e (map target ms).
Proof.
  rewrite find_none_iff. split.
  - intros H Hin. apply in_map_iff in Hin. destruct Hin as (m & <- & Hm).
    specialize (H m Hm). rewrite Nat.eqb_refl in H. discriminate.
  - intros H m Hm. apply Nat.eqb_neq. intros <-. apply H. now apply in_map.
Qed.

(** ** What the lookups compute *)

Lemma getMetadata_eq e w :
  getMetadata e w =
  (match find (fun m => target m =? e) (_metadatas (this w)) with
   | Some m => Ok m
   | None => Throw (MetadataNotFoundError e)
   end, w).
Proof.
  unfold getMetadata, bind, field.
  destruct (find _ _); reflexivity.
Qed.

Lemma getBroadcaster_eq e w :
  getBroadcaster e w =
  (match find (fun b => entityClass b =? e) (_broadcasters (this w)) with
   | Some b => Ok b
   | None => Throw (BroadcasterNotFoundError e)
   end, w).
Proof.
  unfold getBroadcaster, bind, field.
  destruct (find _ _); reflexivity.
Qed.

Lemma getRepository_eq e w :
  getRepository e w =
  (match find (fun m => target m =? e) (_metadatas (this w)) with
   | None => Throw (MetadataNotFoundError e)
   | Some m =>
       match find (fun rm => metadata rm =? m)
                  (repositoryAndMetadatas (this w)) with
       | None => Throw (RepositoryNotFoundError e)
       | Some rm => Ok (repository rm)
       end
   end, w).
Proof.
  unfold getRepository, bind. rewrite getMetadata_eq.
  destruct (find _ (_metadatas _)); [|reflexivity].
  unfold field. destruct (find _ _); reflexivity.
Qed.

(** ** What a registration computes *)


Lemma mapM_createBroadcaster ms : forall w,
  mapM createBroadcasterForMetadata ms w =
  (Ok (fresh_broadcasters (next_id w) (_subscribers (this w)) ms),
   bump (length ms) w).
Proof.
  induction ms as [|m ms IH]; intros w; simpl.
  - unfold ret, bump. rewrite Nat.add_0_r. now destruct w.
  - unfold bind at 1.
    unfold createBroadcasterForMetadata at 1, bind, field, new_object, ret.
    fold (bind (A:=list OrmBroadcaster) (B:=list OrmBroadcaster)).
    unfold bind. rewrite IH. simpl. unfold bump. simpl.
    now rewrite Nat.add_succ_r.
Qed.

Lemma fresh_broadcasters_length id subs ms :
  length (fresh_broadcasters id subs ms) = length ms.
Proof. revert id; induction ms; simpl; intros; auto. Qed.

Lemma fresh_broadcasters_class id subs ms :
  map entityClass (fresh_broadcasters id subs ms) = map target ms.
Proof. revert id; induction ms; simpl; intros; f_equal; auto. Qed.

Lemma fresh_broadcasters_ids id subs ms :
  map bc_id (fresh_broadcasters id subs ms) = seq id (length ms).
Proof. revert id; induction ms; simpl; intros; f_equal; auto. Qed.

Lemma fresh_broadcasters_subs id subs ms :
  Forall (fun b => bc_subscribers b = subs) (fresh_broadcasters id subs ms).
Proof. revert id; induction ms; simpl; intros; constructor; auto. Qed.

Lemma fresh_broadcasters_nth id subs ms i m :
  nth_error ms i = Some m ->
  nth_error (fresh_broadcasters id subs ms) i =
  Some (mkBroadcaster (id + i) subs (target m)).
Proof.
  revert id i; induction ms as [|a ms IH]; intros id [|i]; simpl; try discriminate.
  - intros [= ->]. now rewrite Nat.add_0_r.
  - intros H. rewrite (IH (S id) i H). do 2 f_equal. lia.
Qed.


Lemma mapM_createRepoMeta ms : forall w,
  (forall m, In m ms -> In (target m) (map entityClass (_broadcasters (this w)))) ->
  exists rms,
    mapM createRepoMeta ms w = (Ok rms, bump (length ms) w) /\
    Forall2 (bound_to (_broadcasters (this w))) ms rms /\
    map (fun rm => repo_id (repository rm)) rms = seq (next_id w) (length ms).
Proof.
  induction ms as [|m ms IH]; intros w Hall; simpl.
  - exists []. unfold ret, bump. rewrite Nat.add_0_r.
    repeat split; [now destruct w|constructor].
  - destruct (find (fun b => entityClass b =? target m) (_broadcasters (this w)))
      as [b|] eqn:Eb.
    2:{ apply find_class_none in Eb. exfalso. apply Eb, Hall. now left. }
    destruct (IH (bump 1 w)) as (rms & Hrun & Hb & Hids).
    { intros m' Hm'. simpl. apply Hall. now right. }
    exists (mkRepoMeta (mkRepository (next_id w) m b) m :: rms).
    repeat split.
    + unfold bind at 1.
      unfold createRepoMeta at 1, bind. rewrite getBroadcaster_eq, Eb.
      unfold new_object, ret.
      replace (mkWorld (this w) (arrays w) (S (next_id w)) (events w))
        with (bump 1 w) by (unfold bump; now rewrite Nat.add_1_r).
      rewrite Hrun. unfold bump. simpl. do 2 f_equal. lia.
    + constructor; [|exact Hb]. repeat split; simpl; auto.
    + simpl. f_equal. rewrite Hids. simpl. now rewrite Nat.add_1_r.
Qed.

Lemma fresh_broadcasters_has_class id subs ms m :
  In m ms -> In (target m) (map entityClass (fresh_broadcasters id subs ms)).
Proof.
  rewrite fresh_broadcasters_class. apply in_map.
Qed.

Lemma addMetadatas_spec ms w :
  exists rms,
    addMetadatas ms w = (Ok tt, registered_state w ms rms) /\
    Forall2 (bound_to (_broadcasters (this w) ++
               fresh_broadcasters (next_id w) (_subscribers (this w)) ms))
            ms rms /\
    map (fun rm => repo_id (repository rm)) rms =
    seq (next_id w + length ms) (length ms).
Proof.
  unfold addMetadatas, bind, field, assign. simpl.
  rewrite mapM_createBroadcaster. simpl.
  match goal with
  | |- context [mapM createRepoMeta ms ?W] =>
      destruct (mapM_createRepoMeta ms W) as (rms & Hrun & Hb & Hids)
  end.
  { intros m Hm. simpl. rewrite map_app. apply in_or_app. right.
    now apply fresh_broadcasters_has_class. }
  exists rms. rewrite Hrun. simpl in *. repeat split; assumption.
Qed.

(** ** What the other operations compute *)

Lemma addSubscribers_eq ss w :
  addSubscribers ss w =
  (Ok tt, mkWorld (set_subscribers (length (arrays w)) (this w))
                  (arrays w ++ [subscribers w ++ ss])
                  (next_id w) (events w)).
Proof. reflexivity. Qed.

Lemma close_eq d w :
  close d w =
  (match d with Resolved => Ok tt | Rejected r => Throw (ExternalError r) end,
   mkWorld (this w) (arrays w) (next_id w) (events w ++ [DriverDisconnectCalled])).
Proof. destruct d; reflexivity. Qed.

Lemma connect_state o d s w :
  this (snd (connect o d s w)) = set_options o (this w) /\
  arrays (snd (connect o d s w)) = arrays w /\
  next_id (snd (connect o d s w)) = next_id w.
Proof.
  unfold connect, autoSchemaCreate_is_true.
  destruct d, s, (autoSchemaCreate o) as [[|]|]; simpl; auto.
Qed.

(** ** The invariant holds in every reachable state *)

Lemma consistent_new name : consistent (new_Connection name).
Proof.
  constructor; simpl; auto; constructor.
Qed.

Lemma Forall2_bound_metadata bs ms rms :
  Forall2 (bound_to bs) ms rms -> map metadata rms = ms.
Proof.
  induction 1 as [|m rm ms rms (Hm & _) _ IH]; simpl; [reflexivity|].
  now rewrite Hm, IH.
Qed.

Lemma Forall2_bound_Forall bs ms rms :
  Forall2 (bound_to bs) ms rms ->
  Forall (fun rm => bound_to bs (metadata rm) rm) rms.
Proof.
  induction 1 as [|m rm ms rms Hb _ IH]; constructor; [|exact IH].
  destruct Hb as (Hm & Hb). rewrite Hm. now split.
Qed.

Lemma bound_to_app bs bs' m rm :
  bound_to bs m rm -> bound_to (bs ++ bs') m rm.
Proof.
  intros (Hm & Hr & Hf). repeat split; auto.
  now rewrite find_app, Hf.
Qed.

Lemma consistent_addMetadatas ms w :
  consistent w -> consistent (snd (addMetadatas ms w)).
Proof.
  intros [Hp Hc Hb Hs Hv Hi Hn].
  destruct (addMetadatas_spec ms w) as (rms & -> & Hnew & _).
  constructor; simpl.
  - rewrite map_app, Hp. f_equal. eapply Forall2_bound_metadata; eauto.
  - now rewrite !map_app, Hc, fresh_broadcasters_class.
  - apply Forall_app. split.
    + eapply Forall_impl; [|exact Hb]. intros rm. apply bound_to_app.
    + eapply Forall2_bound_Forall; eauto.
  - exact Hs.
  - apply Forall_app. split; [exact Hv|].
    eapply Forall_impl; [|apply fresh_broadcasters_subs].
    simpl. intros b ->. exact Hs.
  - apply Forall_app. split.
    + eapply Forall_impl; [|exact Hi]. simpl. intros; lia.
    + apply Forall_forall. intros b Hin.
      apply (in_map bc_id) in Hin. rewrite fresh_broadcasters_ids in Hin.
      apply in_seq in Hin. lia.
  - rewrite map_app, fresh_broadcasters_ids.
    apply NoDup_app; [exact Hn|apply seq_NoDup|].
    intros a Ha Hseq. apply in_seq in Hseq.
    apply in_map_iff in Ha. destruct Ha as (b & <- & Hbin).
    rewrite Forall_forall in Hi. specialize (Hi b Hbin). lia.
Qed.

Lemma consistent_addSubscribers ss w :
  consistent w -> consistent (snd (addSubscribers ss w)).
Proof.
  intros [Hp Hc Hb Hs Hv Hi Hn]. rewrite addSubscribers_eq.
  constructor; simpl; auto.
  - rewrite length_app. simpl. lia.
  - eapply Forall_impl; [|exact Hv]. simpl. intros b Hlt.
    rewrite length_app. simpl. lia.
Qed.

Lemma consistent_step w op : consistent w -> consistent (step w op).
Proof.
  intros H. destruct op as [o d s|d|ms|ss|e|e|e]; simpl.
  - destruct (connect_state o d s w) as (Ht & Ha & Hn).
    destruct H as [Hp Hc Hb Hs Hv Hi Hnd].
    constructor; rewrite ?Ht, ?Ha, ?Hn; simpl; assumption.
  - rewrite close_eq. destruct H. constructor; simpl; assumption.
  - now apply consistent_addMetadatas.
  - now apply consistent_addSubscribers.
  - now rewrite getMetadata_eq.
  - now rewrite getRepository_eq.
  - now rewrite getBroadcaster_eq.
Qed.

Lemma consistent_run ops : forall w, consistent w -> consistent (run ops w).
Proof.
  induction ops as [|op ops IH]; intros w H; simpl; [exact H|].
  apply IH. now apply consistent_step.
Qed.

Lemma consistent_after name ops : consistent (after name ops).
Proof. apply consistent_run, consistent_new. Qed.

(** ** The sequences only grow *)

Lemma step_metadatas w op :
  _metadatas (this (step w op)) = _metadatas (this w) ++ registered_by op.
Proof.
  destruct op as [o d s|d|ms|ss|e|e|e]; simpl; rewrite ?app_nil_r.
  - destruct (connect_state o d s w) as (-> & _). reflexivity.
  - now rewrite close_eq.
  - destruct (addMetadatas_spec ms w) as (rms & -> & _). reflexivity.
  - reflexivity.
  - now rewrite getMetadata_eq.
  - now rewrite getRepository_eq.
  - now rewrite getBroadcaster_eq.
Qed.

Lemma run_metadatas ops : forall w,
  _metadatas (this (run ops w)) = _metadatas (this w) ++ registered ops.
Proof.
  induction ops as [|op ops IH]; intros w; simpl.
  - now rewrite app_nil_r.
  - unfold run in IH. rewrite IH, step_metadatas. now rewrite <- app_assoc.
Qed.

Lemma after_metadatas name ops :
  _metadatas (this (after name ops)) = registered ops.
Proof. unfold after. now rewrite run_metadatas. Qed.

Lemma step_broadcasters w op :
  exists bs, _broadcasters (this (step w op)) = _broadcasters (this w) ++ bs.
Proof.
  destruct op as [o d s|d|ms|ss|e|e|e]; simpl.
  3:{ destruct (addMetadatas_spec ms w) as (rms & -> & _). simpl. eauto. }
  all: exists []; rewrite app_nil_r.
  - destruct (connect_state o d s w) as (-> & _). reflexivity.
  - now rewrite close_eq.
  - reflexivity.
  - now rewrite getMetadata_eq.
  - now rewrite getRepository_eq.
  - now rewrite getBroadcaster_eq.
Qed.

Lemma run_broadcasters ops : forall w,
  exists bs, _broadcasters (this (run ops w)) = _broadcasters (this w) ++ bs.
Proof.
  induction ops as [|op ops IH]; intros w; simpl.
  - exists []. now rewrite app_nil_r.
  - destruct (IH (step w op)) as (bs & Hbs).
    destruct (step_broadcasters w op) as (bs' & Hbs').
    exists (bs' ++ bs). now rewrite Hbs, Hbs', app_assoc.
Qed.

(** ** Arrays of subscribers are never written after their creation *)

Lemma step_arrays w op :
  exists more, arrays (step w op) = arrays w ++ more.
Proof.
  destruct op as [o d s|d|ms|ss|e|e|e]; simpl.
  4:{ eexists. reflexivity. }
  all: exists []; rewrite app_nil_r.
  - now destruct (connect_state o d s w) as (_ & -> & _).
  - now rewrite close_eq.
  - destruct (addMetadatas_spec ms w) as (rms & -> & _). reflexivity.
  - now rewrite getMetadata_eq.
  - now rewrite getRepository_eq.
  - now rewrite getBroadcaster_eq.
Qed.

Lemma run_arrays ops : forall w,
  exists more, arrays (run ops w) = arrays w ++ more.
Proof.
  induction ops as [|op ops IH]; intros w; simpl.
  - exists []. now rewrite app_nil_r.
  - destruct (IH (step w op)) as (m1 & H1).
    destruct (step_arrays w op) as (m2 & H2).
    exists (m2 ++ m1). now rewrite H1, H2, app_assoc.
Qed.

Lemma run_elements ops w l :
  l < length (arrays w) -> elements (run ops w) l = elements w l.
Proof.
  intros Hl. unfold elements. destruct (run_arrays ops w) as (more & ->).
  now apply app_nth1.
Qed.

Lemma step_subscribers w op :
  subscribers (step w op) = subscribers w ++ subscribed_by op.
Proof.
  destruct op as [o d s|d|ms|ss|e|e|e]; cbn [step subscribed_by];
    rewrite ?app_nil_r.
  - unfold subscribers, elements.
    destruct (connect_state o d s w) as (-> & -> & _). reflexivity.
  - now rewrite close_eq.
  - destruct (addMetadatas_spec ms w) as (rms & -> & _). reflexivity.
  - rewrite addSubscribers_eq. unfold subscribers at 1, elements. simpl.
    apply nth_middle.
  - now rewrite getMetadata_eq.
  - now rewrite getRepository_eq.
  - now rewrite getBroadcaster_eq.
Qed.

Lemma run_subscribers ops : forall w,
  subscribers (run ops w) = subscribers w ++ subscribed ops.
Proof.
  induction ops as [|op ops IH]; intros w; simpl.
  - now rewrite app_nil_r.
  - unfold run in IH. rewrite IH, step_subscribers. now rewrite <- app_assoc.
Qed.

Lemma after_subscribers name ops :
  subscribers (after name ops) = subscribed ops.
Proof. unfold after. now rewrite run_subscribers. Qed.

(** ** Lookups in a consistent registry *)

Lemma find_pair_of_metadata (rms : list RepositoryAndMetadata) e m :
  find (fun m => target m =? e) (map metadata rms) = Some m ->
  find (fun rm => metadata rm =? m) rms =
  find (fun rm => target (metadata rm) =? e) rms /\
  exists rm, find (fun rm => metadata rm =? m) rms = Some rm.
Proof.
  induction rms as [|a rms IH]; simpl; [discriminate|].
  destruct (target (metadata a) =? e) eqn:Ea.
  - intros [= <-]. rewrite Nat.eqb_refl. eauto.
  - intros Hm. destruct (metadata a =? m) eqn:Em; [|now apply IH].
    apply Nat.eqb_eq in Em. apply find_some in Hm. destruct Hm as (_ & Hm).
    rewrite <- Em in Hm. congruence.
Qed.

Lemma find_map_metadata (rms : list RepositoryAndMetadata) e :
  find (fun m => target m =? e) (map metadata rms) =
  option_map metadata (find (fun rm => target (metadata rm) =? e) rms).
Proof.
  induction rms as [|a rms IH]; simpl; [reflexivity|].
  destruct (target (metadata a) =? e); [reflexivity|exact IH].
Qed.

(** In a consistent registry [getRepository] returns the repository of the
    first pair whose metadata has the class as target. *)
Lemma getRepository_first_pair w e :
  consistent w ->
  getRepository e w =
  (match find (fun rm => target (metadata rm) =? e)
              (repositoryAndMetadatas (this w)) with
   | Some rm => Ok (repository rm)
   | None => Throw (MetadataNotFoundError e)
   end, w).
Proof.
  intros Hw. rewrite getRepository_eq. f_equal.
  rewrite <- (pairs_mirror Hw).
  destruct (find _ (map metadata _)) as [m|] eqn:Em.
  - destruct (find_pair_of_metadata _ _ Em) as (Heq & rm & Hrm).
    now rewrite <- Heq, Hrm.
  - rewrite find_map_metadata in Em.
    destruct (find _ (repositoryAndMetadatas _)); [discriminate|reflexivity].
Qed.

Lemma RepositoryNotFoundError_unreachable w e e' :
  consistent w -> fst (getRepository e w) <> Throw (RepositoryNotFoundError e').
Proof.
  intros Hw. rewrite (getRepository_first_pair e Hw). simpl.
  destruct (find _ _); discriminate.
Qed.

Lemma getRepository_broadcaster w e r :
  consistent w -> fst (getRepository e w) = Ok r ->
  fst (getBroadcaster e w) = Ok (repo_broadcaster r).
Proof.
  intros Hw. rewrite (getRepository_first_pair e Hw), getBroadcaster_eq. simpl.
  destruct (find _ (repositoryAndMetadatas _)) as [rm|] eqn:Erm; [|discriminate].
  intros [= <-]. apply find_some in Erm. destruct Erm as (Hin & He).
  apply Nat.eqb_eq in He.
  pose proof (pairs_bound Hw) as Hb. rewrite Forall_forall in Hb.
  destruct (Hb rm Hin) as (_ & _ & Hf). rewrite He in Hf. now rewrite Hf.
Qed.

Lemma getRepository_registered w e :
  consistent w -> In e (map target (_metadatas (this w))) ->
  exists r, getRepository e w = (Ok r, w).
Proof.
  intros Hw Hin. rewrite (getRepository_first_pair e Hw).
  destruct (find _ _) as [rm|] eqn:Erm; [eauto|].
  exfalso. rewrite <- (pairs_mirror Hw), map_map in Hin.
  apply in_map_iff in Hin. destruct Hin as (rm & He & Hrm).
  apply (find_none _ _ Erm) in Hrm. simpl in Hrm.
  rewrite He, Nat.eqb_refl in Hrm. discriminate.
Qed.

(** * The claims *)

(** C1, as amended: for an entity class that is the target of no metadata ever
    passed to [addMetadatas], [getMetadata] throws [MetadataNotFoundError],
    [getBroadcaster] throws [BroadcasterNotFoundError], and [getRepository]
    throws the [MetadataNotFoundError] of the [getMetadata] call it starts
    with, each error carrying the class and the state left as it was. *)
Theorem lookups_of_unregistered_class name ops e :
  ~ In e (map target (registered ops)) ->
  let w := after name ops in
  getMetadata e w = (Throw (MetadataNotFoundError e), w) /\
  getBroadcaster e w = (Throw (BroadcasterNotFoundError e), w) /\
  getRepository e w = (Throw (MetadataNotFoundError e), w).
Proof.
  intros Hno w.
  assert (Hm : find (fun m => target m =? e) (_metadatas (this w)) = None).
  { apply find_target_none. unfold w. now rewrite after_metadatas. }
  assert (Hb : find (fun b => entityClass b =? e) (_broadcasters (this w)) = None).
  { apply find_class_none. unfold w.
    rewrite (classes_mirror (consistent_after name ops)).
    now rewrite after_metadatas. }
  rewrite getMetadata_eq, getBroadcaster_eq, getRepository_eq, Hm, Hb.
  auto.
Qed.

(** C7: in every state reached from construction through the public
    operations, for every entity class that is the target of a registered
    metadata, [getRepository] returns a repository and leaves the state as it
    was; it does not throw [RepositoryNotFoundError]. *)
Theorem getRepository_of_registered_class name ops e :
  In e (map target (registered ops)) ->
  let w := after name ops in
  (exists r, getRepository e w = (Ok r, w)) /\
  forall e', fst (getRepository e w) <> Throw (RepositoryNotFoundError e').
Proof.
  intros Hin w. split.
  - apply getRepository_registered; [apply consistent_after|].
    unfold w. now rewrite after_metadatas.
  - intros e'. apply RepositoryNotFoundError_unreachable, consistent_after.
Qed.

(** C8: after construction and any sequence of public operations, the
    metadata, broadcaster and pair sequences have the same length, the i-th
    pair holds the i-th metadata, and the i-th broadcaster carries the target
    of the i-th metadata. *)
Theorem sequences_mirror_each_other name ops :
  let c := this (after name ops) in
  length (_broadcasters c) = length (_metadatas c) /\
  length (repositoryAndMetadatas c) = length (_metadatas c) /\
  forall i,
    (forall rm, nth_error (repositoryAndMetadatas c) i = Some rm ->
                nth_error (_metadatas c) i = Some (metadata rm)) /\
    (forall b, nth_error (_broadcasters c) i = Some b ->
               exists m, nth_error (_metadatas c) i = Some m /\
                         entityClass b = target m).
Proof.
  intros c. pose proof (consistent_after name ops) as Hw. fold c in Hw.
  pose proof (pairs_mirror Hw) as Hp. pose proof (classes_mirror Hw) as Hc.
  fold c in Hp, Hc. repeat split.
  - apply (f_equal (@length _)) in Hc. now rewrite !length_map in Hc.
  - apply (f_equal (@length _)) in Hp. now rewrite length_map in Hp.
  - intros rm Hrm. rewrite <- Hp. now apply map_nth_error.
  - intros b Hb. apply (map_nth_error entityClass) in Hb.
    rewrite Hc, nth_error_map in Hb.
    destruct (nth_error (_metadatas c) i) as [m|]; [|discriminate].
    exists m. split; [reflexivity|]. simpl in Hb. congruence.
Qed.

(** C9: in every state and for every entity class, each lookup leaves the
    whole state as it was, whether it returns or throws; what it returns is
    determined by the state: [getMetadata] the first metadata with that
    target, [getBroadcaster] the first broadcaster with that class,
    [getRepository] the repository of the first pair holding the metadata
    that [getMetadata] resolves, which in a state reached through the public
    operations is the first pair whose metadata has that target. *)
Theorem lookups_are_pure_first_match w e :
  (snd (getMetadata e w) = w /\ snd (getRepository e w) = w /\
   snd (getBroadcaster e w) = w) /\
  (forall m, fst (getMetadata e w) = Ok m <->
             first_match (fun m => target m =? e) (_metadatas (this w)) m) /\
  (forall b, fst (getBroadcaster e w) = Ok b <->
             first_match (fun b => entityClass b =? e)
                         (_broadcasters (this w)) b) /\
  (forall r, fst (getRepository e w) = Ok r <->
             exists m rm,
               first_match (fun m => target m =? e) (_metadatas (this w)) m /\
               first_match (fun rm => metadata rm =? m)
                           (repositoryAndMetadatas (this w)) rm /\
               repository rm = r) /\
  (forall name ops r,
     fst (getRepository e (after name ops)) = Ok r <->
     exists rm,
       first_match (fun rm => target (metadata rm) =? e)
                   (repositoryAndMetadatas (this (after name ops))) rm /\
       repository rm = r).
Proof.
  split; [|split; [|split; [|split]]].
  - now rewrite getMetadata_eq, getRepository_eq, getBroadcaster_eq.
  - intros m. rewrite getMetadata_eq, <- find_first_match. simpl.
    destruct (find _ _); split; congruence.
  - intros b. rewrite getBroadcaster_eq, <- find_first_match. simpl.
    destruct (find _ _); split; congruence.
  - intros r. rewrite getRepository_eq. simpl. split.
    + destruct (find _ (_metadatas _)) as [m|] eqn:Em; [|discriminate].
      destruct (find _ (repositoryAndMetadatas _)) as [rm|] eqn:Erm;
        [|discriminate].
      intros [= <-]. exists m, rm. rewrite <- !find_first_match. auto.
    + intros (m & rm & Hm & Hrm & <-).
      apply find_first_match in Hm, Hrm. now rewrite Hm, Hrm.
  - intros name ops r.
    rewrite (getRepository_first_pair e (consistent_after name ops)). simpl.
    split.
    + destruct (find _ _) as [rm|] eqn:Erm; [|discriminate].
      intros [= <-]. exists rm. now rewrite <- find_first_match.
    + intros (rm & Hrm & <-). apply find_first_match in Hrm. now rewrite Hrm.
Qed.

(** C10: in every state, [close] only calls the driver's [disconnect]: the
    metadata, subscriber, broadcaster and pair sequences, the repositories and
    every broadcaster's subscriber view are as before. *)
Theorem close_keeps_the_registry d w :
  let w' := snd (close d w) in
  events w' = events w ++ [DriverDisconnectCalled] /\
  this w' = this w /\
  _metadatas (this w') = _metadatas (this w) /\
  subscribers w' = subscribers w /\
  _broadcasters (this w') = _broadcasters (this w) /\
  repositoryAndMetadatas (this w') = repositoryAndMetadatas (this w) /\
  repositories (this w') = repositories (this w) /\
  forall b, subscribers_of w' b = subscribers_of w b.
Proof.
  intros w'. unfold w'. rewrite close_eq. simpl. repeat split.
Qed.

(** C6: [connect] calls the schema creator's [create] exactly when the
    driver's session promise resolved and [options.autoSchemaCreate] is
    [true] (not when it is [false] or omitted, not when the session is
    rejected), at most once, and in the log of the call every [create] comes
    after the session was established. *)
Theorem connect_creates_schema_after_session options d s w :
  exists log,
    events (snd (connect options d s w)) = events w ++ log /\
    (In SchemaCreateCalled log <->
     d = Resolved /\ autoSchemaCreate options = Some true) /\
    count_occ Event_eq_dec log SchemaCreateCalled <= 1 /\
    forall j, nth_error log j = Some SchemaCreateCalled ->
              exists i, i < j /\ nth_error log i = Some DriverSessionEstablished.
Proof.
  unfold connect, autoSchemaCreate_is_true.
  destruct d as [|r].
  - destruct (autoSchemaCreate options) as [[|]|] eqn:Ea.
    + exists [SchemaCreatorConstructed; DriverConnectCalled options;
              DriverSessionEstablished; SchemaCreateCalled].
      split; [destruct s; simpl; now rewrite <- !app_assoc|].
      split; [simpl; intuition|].
      split.
      { simpl. destruct (Event_eq_dec (DriverConnectCalled options)
                                      SchemaCreateCalled); [discriminate|].
        auto. }
      intros j Hj. exists 2. split; [|reflexivity].
      do 3 (destruct j as [|j]; [discriminate|]). lia.
    + exists [SchemaCreatorConstructed; DriverConnectCalled options;
              DriverSessionEstablished].
      split; [simpl; now rewrite <- !app_assoc|].
      split; [simpl; intuition; discriminate|].
      split.
      { simpl. destruct (Event_eq_dec (DriverConnectCalled options)
                                      SchemaCreateCalled); [discriminate|].
        auto. }
      intros j Hj. do 3 (destruct j as [|j]; [discriminate|]).
      destruct j; discriminate.
    + exists [SchemaCreatorConstructed; DriverConnectCalled options;
              DriverSessionEstablished].
      split; [simpl; now rewrite <- !app_assoc|].
      split; [simpl; intuition; discriminate|].
      split.
      { simpl. destruct (Event_eq_dec (DriverConnectCalled options)
                                      SchemaCreateCalled); [discriminate|].
        auto. }
      intros j Hj. do 3 (destruct j as [|j]; [discriminate|]).
      destruct j; discriminate.
  - exists [SchemaCreatorConstructed; DriverConnectCalled options].
    split; [simpl; now rewrite <- !app_assoc|].
    split; [simpl; intuition; discriminate|].
    split.
    { simpl. destruct (Event_eq_dec (DriverConnectCalled options)
                                    SchemaCreateCalled); [discriminate|].
      auto. }
    intros j Hj. do 2 (destruct j as [|j]; [discriminate|]).
    destruct j; discriminate.
Qed.

Lemma fresh_broadcasters_app id subs l1 l2 :
  fresh_broadcasters id subs (l1 ++ l2) =
  fresh_broadcasters id subs l1 ++ fresh_broadcasters (id + length l1) subs l2.
Proof.
  revert id; induction l1 as [|a l1 IH]; intros id; simpl.
  - now rewrite Nat.add_0_r.
  - rewrite IH. do 3 f_equal. lia.
Qed.

Lemma Forall2_nth_error A B (R : A -> B -> Prop) l l' i x :
  Forall2 R l l' -> nth_error l i = Some x ->
  exists y, nth_error l' i = Some y /\ R x y.
Proof.
  intros H; revert i; induction H as [|a b l l' Hab _ IH]; intros [|i]; simpl;
    try discriminate.
  - intros [= <-]. eauto.
  - apply IH.
Qed.

(** C4, as amended: after [addMetadatas([M])] in a state reached through the
    public operations, the call has returned, [getMetadata(M.target)] returns
    the first metadata registered with that target (which is [M] when none was
    registered before), [getRepository(M.target)] returns a repository whose
    broadcaster is the one [getBroadcaster(M.target)] returns, and the
    metadata, broadcaster, pair and repository sequences are the former ones
    with one entry appended. *)
Theorem addMetadatas_of_one_metadata name ops M :
  let w0 := after name ops in
  let w1 := snd (addMetadatas [M] w0) in
  fst (addMetadatas [M] w0) = Ok tt /\
  fst (getMetadata (target M) w1) =
    Ok (match find (fun m => target m =? target M) (_metadatas (this w0)) with
        | Some m0 => m0
        | None => M
        end) /\
  (exists r, fst (getRepository (target M) w1) = Ok r /\
             fst (getBroadcaster (target M) w1) = Ok (repo_broadcaster r)) /\
  _metadatas (this w1) = _metadatas (this w0) ++ [M] /\
  (exists b, _broadcasters (this w1) = _broadcasters (this w0) ++ [b]) /\
  (exists rm,
     repositoryAndMetadatas (this w1) =
       repositoryAndMetadatas (this w0) ++ [rm] /\
     repositories (this w1) = repositories (this w0) ++ [repository rm]).
Proof.
  intros w0 w1.
  assert (Hw1 : consistent w1)
    by apply consistent_addMetadatas, consistent_after.
  destruct (addMetadatas_spec [M] w0) as (rms & Hrun & Hb & _).
  inversion Hb as [|? rm ? rms' _ Hnil]; subst. inversion Hnil; subst.
  assert (E1 : w1 = registered_state w0 [M] [rm]) by (unfold w1; now rewrite Hrun).
  split; [now rewrite Hrun|]. split; [|split; [|split; [|split]]].
  - rewrite getMetadata_eq, E1. simpl. rewrite find_app. simpl.
    rewrite Nat.eqb_refl. now destruct (find _ _).
  - destruct (@getRepository_registered w1 (target M) Hw1) as (r & Hr).
    { rewrite E1. simpl. rewrite map_app. apply in_or_app. right. now left. }
    exists r. rewrite Hr. split; [reflexivity|].
    apply getRepository_broadcaster; [exact Hw1|now rewrite Hr].
  - now rewrite E1.
  - rewrite E1. simpl. eauto.
  - exists rm. rewrite E1. unfold repositories. simpl.
    now rewrite map_app.
Qed.

(** C5: when [addMetadatas] is called twice with metadatas of the same target,
    both metadatas and both pairs are kept, each pair with its own metadata and
    its own repository object, and [getRepository(target)] returns the
    repository of the first pair registered for that target: the first of the
    two, unless the target had been registered even earlier. *)
Theorem same_target_twice_first_wins name ops M1 M2 :
  target M1 = target M2 ->
  let w0 := after name ops in
  let w2 := run [OpAddMetadatas [M1]; OpAddMetadatas [M2]] w0 in
  exists rm1 rm2,
    _metadatas (this w2) = _metadatas (this w0) ++ [M1; M2] /\
    repositoryAndMetadatas (this w2) =
      repositoryAndMetadatas (this w0) ++ [rm1; rm2] /\
    metadata rm1 = M1 /\ metadata rm2 = M2 /\
    repository rm1 <> repository rm2 /\
    getRepository (target M2) w2 =
      (Ok (repository
             (match find (fun rm => target (metadata rm) =? target M2)
                         (repositoryAndMetadatas (this w0)) with
              | Some rm0 => rm0
              | None => rm1
              end)), w2).
Proof.
  intros Ht w0 w2.
  assert (Hw2 : consistent w2) by apply consistent_run, consistent_after.
  unfold w2 in *. clear w2. cbn [run fold_left step] in *.
  destruct (addMetadatas_spec [M1] w0) as (rms1 & Hrun1 & Hb1 & Hid1).
  rewrite Hrun1 in *. cbn [snd] in *.
  inversion Hb1 as [|? rm1 ? rms' Hrm1 Hnil]; subst. inversion Hnil; subst.
  set (w1 := registered_state w0 [M1] [rm1]) in *.
  destruct (addMetadatas_spec [M2] w1) as (rms2 & Hrun2 & Hb2 & Hid2).
  rewrite Hrun2 in *. cbn [snd] in *.
  inversion Hb2 as [|? rm2 ? rms' Hrm2 Hnil2]; subst. inversion Hnil2; subst.
  exists rm1, rm2. simpl.
  rewrite <- !app_assoc. simpl.
  destruct Hrm1 as (Hm1 & _), Hrm2 as (Hm2 & _).
  repeat split; auto.
  - simpl in Hid1, Hid2. injection Hid1 as Hid1. injection Hid2 as Hid2.
    intros Heq. rewrite Heq in Hid1. lia.
  - rewrite (getRepository_first_pair _ Hw2). simpl.
    rewrite <- app_assoc, find_app. simpl.
    rewrite Hm1, Ht, Nat.eqb_refl. now destruct (find _ _).
Qed.

(** C2, as amended: the broadcaster that [addMetadatas([M])] creates has as
    its subscriber view exactly the sequence of subscribers passed to
    [addSubscribers] before that call, and keeps it through any further public
    operations: it holds every subscriber registered before the call and none
    registered only after it. [getBroadcaster(M.target)] returns that
    broadcaster when no earlier call registered [M.target]. *)
Theorem broadcaster_view_is_frozen name before M later :
  let w0 := after name before in
  let w := run later (step w0 (OpAddMetadatas [M])) in
  exists b,
    nth_error (_broadcasters (this w)) (length (_broadcasters (this w0))) =
      Some b /\
    entityClass b = target M /\
    bc_subscribers b < length (arrays w) /\
    subscribers_of w b = subscribed before /\
    (~ In (target M) (map target (registered before)) ->
     getBroadcaster (target M) w = (Ok b, w)).
Proof.
  intros w0 w.
  pose proof (consistent_after name before) as Hw0. fold w0 in Hw0.
  set (b := mkBroadcaster (next_id w0) (_subscribers (this w0)) (target M)).
  assert (Hw1 : _broadcasters (this (step w0 (OpAddMetadatas [M]))) =
                _broadcasters (this w0) ++ [b] /\
                arrays (step w0 (OpAddMetadatas [M])) = arrays w0).
  { cbn [step]. destruct (addMetadatas_spec [M] w0) as (rms & -> & _).
    split; reflexivity. }
  destruct Hw1 as (Hbs1 & Har1).
  destruct (run_broadcasters later (step w0 (OpAddMetadatas [M]))) as (bs & Hbs).
  fold w in Hbs. rewrite Hbs1 in Hbs.
  assert (Hvalid : bc_subscribers b < length (arrays (step w0 (OpAddMetadatas [M])))).
  { rewrite Har1. exact (subs_valid Hw0). }
  exists b. split; [|split; [|split; [|split]]].
  - rewrite Hbs, <- app_assoc. simpl.
    rewrite nth_error_app2 by lia. now rewrite Nat.sub_diag.
  - reflexivity.
  - unfold w. destruct (run_arrays later (step w0 (OpAddMetadatas [M])))
      as (more & ->).
    rewrite length_app. lia.
  - unfold subscribers_of, w. rewrite run_elements by exact Hvalid.
    unfold elements. rewrite Har1. simpl.
    change (subscribers w0 = subscribed before).
    apply after_subscribers.
  - intros Hno. rewrite getBroadcaster_eq, Hbs, !find_app.
    assert (Hnone : find (fun b0 => entityClass b0 =? target M)
                         (_broadcasters (this w0)) = None).
    { apply find_class_none. rewrite (classes_mirror Hw0).
      unfold w0. now rewrite after_metadatas. }
    rewrite Hnone. simpl. now rewrite Nat.eqb_refl.
Qed.

(** C3, as amended: for the metadata at position [i] of a batch passed to
    [addMetadatas], the pair appended for it holds that metadata and a
    repository bound to the broadcaster [getBroadcaster] returns for the
    metadata's target, the first one registered with that target. That is the
    broadcaster created for the same entry in the same call exactly when no
    metadata registered earlier, in a former call or at a lower position of
    the batch, has the same target. *)
Theorem repository_bound_to_first_broadcaster name ops ms i m :
  nth_error ms i = Some m ->
  let w0 := after name ops in
  let w1 := snd (addMetadatas ms w0) in
  let n := length (_metadatas (this w0)) in
  exists rm b,
    nth_error (repositoryAndMetadatas (this w1)) (n + i) = Some rm /\
    metadata rm = m /\ repo_metadata (repository rm) = m /\
    nth_error (_broadcasters (this w1)) (n + i) = Some b /\
    bc_id b = next_id w0 + i /\
    fst (getBroadcaster (target m) w1) = Ok (repo_broadcaster (repository rm)) /\
    (repo_broadcaster (repository rm) = b <->
     ~ In (target m) (map target (_metadatas (this w0) ++ firstn i ms))).
Proof.
  intros Hm w0 w1 n.
  pose proof (consistent_after name ops) as Hw0. fold w0 in Hw0.
  destruct (addMetadatas_spec ms w0) as (rms & Hrun & Hb & _).
  assert (E1 : w1 = registered_state w0 ms rms) by (unfold w1; now rewrite Hrun).
  assert (Hnp : length (repositoryAndMetadatas (this w0)) = n).
  { unfold n. rewrite <- (pairs_mirror Hw0). now rewrite length_map. }
  assert (Hnb : length (_broadcasters (this w0)) = n).
  { unfold n. rewrite <- (length_map target), <- (classes_mirror Hw0).
    now rewrite length_map. }
  destruct (Forall2_nth_error i Hb Hm) as (rm & Hrm & Hmeta & Hrepo & Hfind).
  set (b := mkBroadcaster (next_id w0 + i) (_subscribers (this w0)) (target m)).
  exists rm, b. rewrite E1. cbn [registered_state this repositoryAndMetadatas
                                 _broadcasters].
  split; [|split; [|split; [|split; [|split; [|split]]]]]; auto.
  - rewrite nth_error_app2 by lia. now replace (n + i - _) with i by lia.
  - rewrite nth_error_app2 by lia. replace (n + i - _) with i by lia.
    now apply fresh_broadcasters_nth.
  - rewrite getBroadcaster_eq. unfold registered_state. simpl.
    now rewrite Hfind.
  - destruct (nth_error_split ms i Hm) as (l1 & l2 & Hms & Hl1).
    assert (Hfirst : firstn i ms = l1).
    { rewrite Hms, <- Hl1. rewrite firstn_app, Nat.sub_diag, firstn_all.
      simpl. now rewrite app_nil_r. }
    rewrite Hfirst. rewrite Hms, fresh_broadcasters_app in Hfind.
    simpl in Hfind. rewrite Hl1 in Hfind. fold b in Hfind.
    rewrite app_assoc, find_app in Hfind.
    set (pre := _broadcasters (this w0) ++
                fresh_broadcasters (next_id w0) (_subscribers (this w0)) l1)
      in *.
    assert (Hclass : map entityClass pre = map target (_metadatas (this w0) ++ l1)).
    { unfold pre. now rewrite !map_app, (classes_mirror Hw0),
        fresh_broadcasters_class. }
    assert (Hids : forall x, In x pre -> bc_id x < next_id w0 + i).
    { intros x Hx. apply in_app_or in Hx. destruct Hx as [Hx|Hx].
      - pose proof (bc_ids_below Hw0) as Hlt. rewrite Forall_forall in Hlt.
        specialize (Hlt x Hx). lia.
      - apply (in_map bc_id) in Hx. rewrite fresh_broadcasters_ids in Hx.
        apply in_seq in Hx. lia. }
    destruct (find _ pre) as [x|] eqn:Ex.
    + apply find_some in Ex. destruct Ex as (Hx & Hcx).
      apply Nat.eqb_eq in Hcx. injection Hfind as Hfind. split.
      * intros Heq. specialize (Hids x Hx). rewrite Hfind, Heq in Hids.
        simpl in Hids. lia.
      * intros Hno. exfalso. apply Hno. rewrite <- Hclass, <- Hcx.
        now apply in_map.
    + simpl in Hfind. rewrite Nat.eqb_refl in Hfind. injection Hfind as Hfind.
      split; [|now intros _].
      intros _. rewrite <- Hclass. now apply find_class_none.
Qed.

(** * Further properties of the registry *)

(** ** Registration *)

(** X1: [addMetadatas] returns in every state and for every batch, also an
    empty one or one with repeated targets: the [getBroadcaster] call of
    [createRepoMeta] finds a broadcaster because those of the batch were
    appended before. The batch is appended to the metadatas, one broadcaster
    per entry with the entry's target and referencing the current subscriber
    array is appended, one pair per entry holding the entry; the subscriber
    field, the options, the name, the arrays and the log are as before. *)
Theorem addMetadatas_always_returns ms w :
  let w' := snd (addMetadatas ms w) in
  fst (addMetadatas ms w) = Ok tt /\
  _metadatas (this w') = _metadatas (this w) ++ ms /\
  (exists bs, _broadcasters (this w') = _broadcasters (this w) ++ bs /\
              map entityClass bs = map target ms /\
              Forall (fun b => bc_subscribers b = _subscribers (this w)) bs) /\
  (exists rms, repositoryAndMetadatas (this w') =
                 repositoryAndMetadatas (this w) ++ rms /\
               map metadata rms = ms /\
               map (fun rm => repo_metadata (repository rm)) rms = ms) /\
  _subscribers (this w') = _subscribers (this w) /\
  _options (this w') = _options (this w) /\
  _name (this w') = _name (this w) /\
  arrays w' = arrays w /\ events w' = events w.
Proof.
  intros w'. unfold w'.
  destruct (addMetadatas_spec ms w) as (rms & -> & Hb & _). simpl.
  split; [reflexivity|]. split; [reflexivity|]. split; [|split].
  - eexists. split; [reflexivity|]. split.
    + apply fresh_broadcasters_class.
    + apply fresh_broadcasters_subs.
  - exists rms. split; [reflexivity|]. split.
    + eapply Forall2_bound_metadata; eauto.
    + clear -Hb. induction Hb as [|m rm ms' rms' (_ & Hr & _) _ IH]; simpl;
        [reflexivity|]. now rewrite Hr, IH.
  - repeat split.
Qed.


(** X3: [addSubscribers] returns in every state; the subscriber sequence is
    the former one followed by the batch, held in an array that did not exist
    before, and every array that existed keeps its elements, also when the
    batch is empty. Metadatas, broadcasters, pairs, options, name and the log
    are as before. *)
Theorem addSubscribers_appends_in_a_new_array ss w :
  let w' := snd (addSubscribers ss w) in
  fst (addSubscribers ss w) = Ok tt /\
  subscribers w' = subscribers w ++ ss /\
  _subscribers (this w') = length (arrays w) /\
  length (arrays w') = S (length (arrays w)) /\
  (forall l, l < length (arrays w) -> elements w' l = elements w l) /\
  _metadatas (this w') = _metadatas (this w) /\
  _broadcasters (this w') = _broadcasters (this w) /\
  repositoryAndMetadatas (this w') = repositoryAndMetadatas (this w) /\
  _options (this w') = _options (this w) /\
  _name (this w') = _name (this w) /\
  events w' = events w.
Proof.
  intros w'. unfold w'. rewrite addSubscribers_eq. simpl.
  split; [reflexivity|]. split; [|split; [reflexivity|split; [|split]]].
  - unfold subscribers at 1, elements. simpl. apply nth_middle.
  - rewrite length_app. simpl. lia.
  - intros l Hl. unfold elements. simpl. now apply app_nth1.
  - repeat split.
Qed.

(** ** Lifecycle *)

Lemma connect_events o d s w :
  events (snd (connect o d s w)) =
  events w ++
  [SchemaCreatorConstructed; DriverConnectCalled o] ++
  match d with
  | Resolved =>
      DriverSessionEstablished ::
      (if autoSchemaCreate_is_true o then [SchemaCreateCalled] else [])
  | Rejected _ => []
  end.
Proof.
  unfold connect.
  destruct d, s, (autoSchemaCreate_is_true o); simpl;
    now rewrite <- !app_assoc.
Qed.

(** X4: the promise returned by [connect] is rejected with the driver's
    reason when the session is not established; otherwise, when
    [autoSchemaCreate] is [true] it settles as the schema creation does, and
    when it is not it resolves whatever the schema creator would do. In every
    case the options are stored, also when the driver rejects, and the
    metadatas, the subscriber array and its elements, the broadcasters, the
    pairs and the name are as before. *)
Theorem connect_outcome_and_frame o d s w :
  let w' := snd (connect o d s w) in
  fst (connect o d s w) =
    match d with
    | Rejected r => Throw (ExternalError r)
    | Resolved => if autoSchemaCreate_is_true o then settle s else Ok tt
    end /\
  _options (this w') = Some o /\
  _name (this w') = _name (this w) /\
  _metadatas (this w') = _metadatas (this w) /\
  subscribers w' = subscribers w /\
  _broadcasters (this w') = _broadcasters (this w) /\
  repositoryAndMetadatas (this w') = repositoryAndMetadatas (this w) /\
  arrays w' = arrays w.
Proof.
  intros w'. unfold w'. split.
  - unfold connect, settle. destruct d, s, (autoSchemaCreate_is_true o);
      reflexivity.
  - unfold subscribers, elements.
    destruct (connect_state o d s w) as (-> & -> & _). simpl. repeat split.
Qed.

Lemma step_driver_calls w op :
  filter is_driver_call (events (step w op)) =
  filter is_driver_call (events w) ++ driver_calls_of op.
Proof.
  destruct op as [o d s|d|ms|ss|e|e|e]; cbn [step driver_calls_of];
    rewrite ?app_nil_r.
  - rewrite connect_events, filter_app. f_equal.
    destruct d; [destruct (autoSchemaCreate_is_true o)|]; reflexivity.
  - rewrite close_eq. simpl. now rewrite filter_app.
  - now destruct (addMetadatas_spec ms w) as (rms & -> & _).
  - reflexivity.
  - now rewrite getMetadata_eq.
  - now rewrite getRepository_eq.
  - now rewrite getBroadcaster_eq.
Qed.

(** X5: along any sequence of public operations the driver is called once by
    each [connect] (with the options of that call, also when an earlier
    [connect] already succeeded) and once by each [close], in the order of
    the calls; registrations and lookups never call it. *)
Theorem driver_called_once_per_lifecycle_call ops : forall w,
  filter is_driver_call (events (run ops w)) =
  filter is_driver_call (events w) ++ flat_map driver_calls_of ops.
Proof.
  induction ops as [|op ops IH]; intros w; simpl.
  - now rewrite app_nil_r.
  - change (fold_left step ops (step w op)) with (run ops (step w op)).
    rewrite IH, step_driver_calls. now rewrite <- app_assoc.
Qed.

Lemma step_options_name w op :
  _options (this (step w op)) =
    match op with OpConnect o _ _ => Some o | _ => _options (this w) end /\
  _name (this (step w op)) = _name (this w).
Proof.
  destruct op as [o d s|d|ms|ss|e|e|e]; cbn [step].
  - now destruct (connect_state o d s w) as (-> & _).
  - now rewrite close_eq.
  - now destruct (addMetadatas_spec ms w) as (rms & -> & _).
  - split; reflexivity.
  - now rewrite getMetadata_eq.
  - now rewrite getRepository_eq.
  - now rewrite getBroadcaster_eq.
Qed.

(** X6: after any sequence of public operations the [options] getter gives
    the options of the most recent [connect] (nothing when there was none,
    as after construction), and the [name] getter gives the name the
    connection had at the start. *)
Theorem options_and_name_along_a_run ops : forall w,
  _options (this (run ops w)) = latest_options (_options (this w)) ops /\
  _name (this (run ops w)) = _name (this w).
Proof.
  induction ops as [|op ops IH]; intros w; simpl; [split; reflexivity|].
  change (fold_left step ops (step w op)) with (run ops (step w op)).
  destruct (IH (step w op)) as (Ho & Hn).
  destruct (step_options_name w op) as (Ho' & Hn').
  rewrite Ho, Hn, Ho', Hn'. split; [|reflexivity].
  unfold latest_options. simpl. now destruct op.
Qed.

(** ** Lookups *)

Lemma step_pairs w op :
  exists rms, repositoryAndMetadatas (this (step w op)) =
              repositoryAndMetadatas (this w) ++ rms.
Proof.
  destruct op as [o d s|d|ms|ss|e|e|e]; cbn [step].
  3:{ destruct (addMetadatas_spec ms w) as (rms & -> & _). simpl. eauto. }
  all: exists []; rewrite app_nil_r.
  - destruct (connect_state o d s w) as (-> & _). reflexivity.
  - now rewrite close_eq.
  - reflexivity.
  - now rewrite getMetadata_eq.
  - now rewrite getRepository_eq.
  - now rewrite getBroadcaster_eq.
Qed.

Lemma run_pairs ops : forall w,
  exists rms, repositoryAndMetadatas (this (run ops w)) =
              repositoryAndMetadatas (this w) ++ rms.
Proof.
  induction ops as [|op ops IH]; intros w; simpl.
  - exists []. now rewrite app_nil_r.
  - change (fold_left step ops (step w op)) with (run ops (step w op)).
    destruct (IH (step w op)) as (r1 & H1).
    destruct (step_pairs w op) as (r2 & H2).
    exists (r2 ++ r1). now rewrite H1, H2, app_assoc.
Qed.

(** X7: in a state reached through the public operations a lookup that
    returns gives an object of the class asked for: the metadata is a
    registered one with that target, the broadcaster is a registered one
    with that class, and the repository is a registered one whose metadata
    and broadcaster are the ones [getMetadata] and [getBroadcaster] return
    for the class. *)
Theorem lookups_return_the_asked_class name ops e :
  let w := after name ops in
  (forall m, fst (getMetadata e w) = Ok m ->
             target m = e /\ In m (registered ops)) /\
  (forall b, fst (getBroadcaster e w) = Ok b ->
             entityClass b = e /\ In b (_broadcasters (this w))) /\
  (forall r, fst (getRepository e w) = Ok r ->
             In r (repositories (this w)) /\
             fst (getMetadata e w) = Ok (repo_metadata r) /\
             fst (getBroadcaster e w) = Ok (repo_broadcaster r) /\
             target (repo_metadata r) = e /\
             entityClass (repo_broadcaster r) = e).
Proof.
  intros w. pose proof (consistent_after name ops) as Hw. fold w in Hw.
  assert (HM : forall m, fst (getMetadata e w) = Ok m ->
                         target m = e /\ In m (registered ops)).
  { intros m. rewrite getMetadata_eq. simpl.
    destruct (find _ _) as [m'|] eqn:Em; [|discriminate].
    intros [= <-]. apply find_some in Em. destruct Em as (Hin & He).
    apply Nat.eqb_eq in He. split; [exact He|].
    unfold w in Hin. now rewrite after_metadatas in Hin. }
  assert (HB : forall b, fst (getBroadcaster e w) = Ok b ->
                         entityClass b = e /\ In b (_broadcasters (this w))).
  { intros b. rewrite getBroadcaster_eq. simpl.
    destruct (find _ _) as [b'|] eqn:Eb; [|discriminate].
    intros [= <-]. apply find_some in Eb. destruct Eb as (Hin & He).
    now apply Nat.eqb_eq in He. }
  split; [exact HM|]. split; [exact HB|].
  intros r Hr.
  pose proof (getRepository_broadcaster e Hw Hr) as Hbr.
  assert (Hmr : In r (repositories (this w)) /\
                fst (getMetadata e w) = Ok (repo_metadata r)).
  { revert Hr. rewrite getRepository_eq, getMetadata_eq. simpl.
    destruct (find _ (_metadatas _)) as [m|]; [|discriminate].
    destruct (find _ (repositoryAndMetadatas _)) as [rm|] eqn:Erm;
      [|discriminate].
    intros [= <-]. apply find_some in Erm. destruct Erm as (Hin & He).
    apply Nat.eqb_eq in He. split.
    - unfold repositories. now apply in_map.
    - pose proof (pairs_bound Hw) as Hb. rewrite Forall_forall in Hb.
      destruct (Hb rm Hin) as (_ & Hrm & _). congruence. }
  destruct Hmr as (Hin & Hmr). repeat split; auto.
  - now apply HM.
  - now apply HB.
Qed.

(** X8: in a state reached through the public operations the three lookups
    return for the same classes: exactly those that are the target of a
    metadata passed to [addMetadatas]. *)
Theorem lookups_know_the_same_classes name ops e :
  let w := after name ops in
  ((exists m, fst (getMetadata e w) = Ok m) <->
   In e (map target (registered ops))) /\
  ((exists b, fst (getBroadcaster e w) = Ok b) <->
   In e (map target (registered ops))) /\
  ((exists r, fst (getRepository e w) = Ok r) <->
   In e (map target (registered ops))).
Proof.
  intros w. pose proof (consistent_after name ops) as Hw. fold w in Hw.
  assert (Hreg : _metadatas (this w) = registered ops)
    by apply after_metadatas.
  split; [|split].
  - rewrite getMetadata_eq, <- Hreg. simpl.
    destruct (find _ _) as [m|] eqn:Em.
    + split; [intros _|eauto]. apply find_some in Em.
      destruct Em as (Hin & He). apply Nat.eqb_eq in He. rewrite <- He.
      now apply in_map.
    + apply find_target_none in Em. split; [intros (m & H); discriminate|].
      intros H. now elim Em.
  - rewrite getBroadcaster_eq, <- Hreg, <- (classes_mirror Hw). simpl.
    destruct (find _ _) as [b|] eqn:Eb.
    + split; [intros _|eauto]. apply find_some in Eb.
      destruct Eb as (Hin & He). apply Nat.eqb_eq in He. rewrite <- He.
      now apply in_map.
    + apply find_class_none in Eb. split; [intros (b & H); discriminate|].
      intros H. now elim Eb.
  - split.
    + intros (r & Hr). rewrite <- Hreg.
      revert Hr. rewrite getRepository_eq. simpl.
      destruct (find _ (_metadatas _)) as [m|] eqn:Em; [|discriminate].
      intros _. apply find_some in Em. destruct Em as (Hin & He).
      apply Nat.eqb_eq in He. rewrite <- He. now apply in_map.
    + intros Hin. rewrite <- Hreg in Hin.
      destruct (getRepository_registered e Hw Hin) as (r & Hr).
      exists r. now rewrite Hr.
Qed.

(** X9: what a lookup returned it returns for ever: after any further public
    operations, from any state, [getMetadata], [getBroadcaster] and
    [getRepository] give the same object for the class as before. *)
Theorem lookups_are_stable ops w e :
  (forall m, fst (getMetadata e w) = Ok m ->
             fst (getMetadata e (run ops w)) = Ok m) /\
  (forall b, fst (getBroadcaster e w) = Ok b ->
             fst (getBroadcaster e (run ops w)) = Ok b) /\
  (forall r, fst (getRepository e w) = Ok r ->
             fst (getRepository e (run ops w)) = Ok r).
Proof.
  destruct (run_broadcasters ops w) as (bs & Hbs).
  destruct (run_pairs ops w) as (rms & Hrms).
  pose proof (run_metadatas ops w) as Hms.
  split; [|split].
  - intros m. rewrite !getMetadata_eq, Hms, find_app. simpl.
    destruct (find _ (_metadatas _)); [auto|discriminate].
  - intros b. rewrite !getBroadcaster_eq, Hbs, find_app. simpl.
    destruct (find _ (_broadcasters _)); [auto|discriminate].
  - intros r. rewrite !getRepository_eq, Hms, Hrms, find_app. simpl.
    destruct (find _ (_metadatas _)) as [m|]; [|discriminate].
    rewrite find_app.
    destruct (find _ (repositoryAndMetadatas _)); [auto|discriminate].
Qed.

(** ** The sequences *)

(** X10: after construction and any sequence of public operations the
    metadata sequence is the batches passed to [addMetadatas] one after the
    other in call order, the subscriber sequence is likewise the batches
    passed to [addSubscribers], and position by position the broadcasters
    carry the targets of these metadatas and the pairs and the repositories
    hold these metadatas. *)
Theorem sequences_are_the_batches_in_call_order name ops :
  let w := after name ops in
  _metadatas (this w) = registered ops /\
  subscribers w = subscribed ops /\
  map entityClass (_broadcasters (this w)) = map target (registered ops) /\
  map metadata (repositoryAndMetadatas (this w)) = registered ops /\
  map repo_metadata (repositories (this w)) = registered ops.
Proof.
  intros w. pose proof (consistent_after name ops) as Hw. fold w in Hw.
  assert (Hreg : _metadatas (this w) = registered ops)
    by apply after_metadatas.
  split; [exact Hreg|]. split; [apply after_subscribers|].
  split; [now rewrite (classes_mirror Hw), Hreg|].
  split; [now rewrite (pairs_mirror Hw)|].
  rewrite <- Hreg, <- (pairs_mirror Hw). unfold repositories.
  rewrite map_map. apply map_ext_in. intros rm Hin.
  pose proof (pairs_bound Hw) as Hb. rewrite Forall_forall in Hb.
  now destruct (Hb rm Hin) as (_ & Hrm & _).
Qed.

(** ** Subscriber views along the broadcaster sequence *)

Lemma is_prefix_refl A (l : list A) : is_prefix l l.
Proof. exists []. now rewrite app_nil_r. Qed.

Lemma is_prefix_app A (l1 l2 more : list A) :
  is_prefix l1 l2 -> is_prefix l1 (l2 ++ more).
Proof. intros (rest & ->). exists (rest ++ more). now rewrite app_assoc. Qed.

Lemma views_ordered_same w w' :
  arrays w' = arrays w ->
  _subscribers (this w') = _subscribers (this w) ->
  _broadcasters (this w') = _broadcasters (this w) ->
  views_ordered w -> views_ordered w'.
Proof.
  unfold views_ordered, subscribers_of, subscribers, elements.
  intros -> -> ->. auto.
Qed.

Lemma views_ordered_addSubscribers ss w :
  consistent w -> views_ordered w ->
  views_ordered (snd (addSubscribers ss w)).
Proof.
  intros Hw (H1 & H2). rewrite addSubscribers_eq.
  pose proof (views_valid Hw) as Hv. rewrite Forall_forall in Hv.
  assert (Hsame : forall b, In b (_broadcasters (this w)) ->
            subscribers_of
              (mkWorld (set_subscribers (length (arrays w)) (this w))
                       (arrays w ++ [subscribers w ++ ss])
                       (next_id w) (events w)) b = subscribers_of w b).
  { intros b Hb. unfold subscribers_of, elements. simpl.
    apply app_nth1. now apply Hv. }
  split; simpl.
  - intros b Hb. rewrite (Hsame b Hb).
    unfold subscribers at 1, elements. simpl. rewrite nth_middle.
    apply is_prefix_app. now apply H1.
  - intros i j bi bj Hij Hi Hj.
    rewrite (Hsame bi), (Hsame bj) by (eapply nth_error_In; eauto).
    exact (H2 i j bi bj Hij Hi Hj).
Qed.

Lemma views_ordered_addMetadatas ms w :
  views_ordered w -> views_ordered (snd (addMetadatas ms w)).
Proof.
  intros (H1 & H2).
  destruct (addMetadatas_spec ms w) as (rms & -> & _).
  set (fresh := fresh_broadcasters (next_id w) (_subscribers (this w)) ms).
  assert (Hfresh : forall b, In b fresh ->
                             elements w (bc_subscribers b) = subscribers w).
  { intros b Hb.
    pose proof (fresh_broadcasters_subs (next_id w) (_subscribers (this w)) ms)
      as Hs.
    rewrite Forall_forall in Hs. now rewrite (Hs b Hb). }
  unfold views_ordered, subscribers_of, subscribers, elements in *.
  simpl. fold fresh. split.
  - intros b Hb. apply in_app_or in Hb. destruct Hb as [Hb|Hb].
    + now apply H1.
    + unfold elements, subscribers in Hfresh. rewrite (Hfresh b Hb).
      apply is_prefix_refl.
  - intros i j bi bj Hij Hi Hj.
    destruct (Nat.lt_ge_cases j (length (_broadcasters (this w)))) as [Hjl|Hjl].
    + rewrite nth_error_app1 in Hj by lia.
      rewrite nth_error_app1 in Hi by lia. exact (H2 i j bi bj Hij Hi Hj).
    + rewrite nth_error_app2 in Hj by lia. apply nth_error_In in Hj.
      unfold elements, subscribers in Hfresh. rewrite (Hfresh bj Hj).
      destruct (Nat.lt_ge_cases i (length (_broadcasters (this w))))
        as [Hil|Hil].
      * rewrite nth_error_app1 in Hi by lia. apply nth_error_In in Hi.
        now apply H1.
      * rewrite nth_error_app2 in Hi by lia. apply nth_error_In in Hi.
        rewrite (Hfresh bi Hi). apply is_prefix_refl.
Qed.

Lemma views_ordered_step w op :
  consistent w -> views_ordered w -> views_ordered (step w op).
Proof.
  intros Hw Hv. destruct op as [o d s|d|ms|ss|e|e|e]; cbn [step].
  - destruct (connect_state o d s w) as (Ht & Ha & _).
    apply (views_ordered_same _ Ha); [now rewrite Ht|now rewrite Ht|exact Hv].
  - now rewrite close_eq.
  - now apply views_ordered_addMetadatas.
  - now apply views_ordered_addSubscribers.
  - now rewrite getMetadata_eq.
  - now rewrite getRepository_eq.
  - now rewrite getBroadcaster_eq.
Qed.

Lemma views_ordered_run ops : forall w,
  consistent w -> views_ordered w -> views_ordered (run ops w).
Proof.
  induction ops as [|op ops IH]; intros w Hw Hv; simpl; [exact Hv|].
  change (fold_left step ops (step w op)) with (run ops (step w op)).
  apply IH; [now apply consistent_step|now apply views_ordered_step].
Qed.

(** X11: after construction and any sequence of public operations, the
    subscriber view of every broadcaster is an initial segment of the current
    subscriber sequence, and of the view of every broadcaster registered
    later: a later broadcaster sees whatever an earlier one sees, in the same
    order, and possibly more. *)
Theorem views_grow_along_the_broadcasters name ops :
  let w := after name ops in
  (forall b, In b (_broadcasters (this w)) ->
             is_prefix (subscribers_of w b) (subscribers w)) /\
  (forall i j bi bj, i <= j ->
     nth_error (_broadcasters (this w)) i = Some bi ->
     nth_error (_broadcasters (this w)) j = Some bj ->
     is_prefix (subscribers_of w bi) (subscribers_of w bj)).
Proof.
  intros w. unfold w, after.
  apply views_ordered_run; [apply consistent_new|].
  split; simpl.
  - intros b [].
  - intros [|i] j bi bj _ Hi; discriminate.
Qed.

(** ** One batch or two calls *)

Lemma erase_fresh_broadcasters id subs ms :
  map erase_broadcaster (fresh_broadcasters id subs ms) =
  map (fun m => (subs, target m)) ms.
Proof. revert id; induction ms; simpl; intros; f_equal; auto. Qed.

Lemma find_erased (bs : list OrmBroadcaster) e :
  option_map erase_broadcaster (find (fun b => entityClass b =? e) bs) =
  find (fun p => snd p =? e) (map erase_broadcaster bs).
Proof.
  induction bs as [|b bs IH]; simpl; [reflexivity|].
  destruct (entityClass b =? e); [reflexivity|exact IH].
Qed.

Lemma bound_pairs_erased la lb ms : forall ra rb,
  map erase_broadcaster la = map erase_broadcaster lb ->
  Forall2 (bound_to la) ms ra -> Forall2 (bound_to lb) ms rb ->
  map erase_pair ra = map erase_pair rb.
Proof.
  intros ra rb Hl Ha. revert rb.
  induction Ha as [|m a ms ra (Hma & Hra & Hfa) _ IH]; intros rb Hb;
    inversion Hb as [|? b ? rb' (Hmb & Hrb & Hfb) Hb']; subst; simpl;
    [reflexivity|].
  f_equal; [|now apply IH].
  unfold erase_pair. rewrite Hmb, Hra, Hrb. f_equal.
  pose proof (find_erased la (target (metadata a))) as Ea.
  pose proof (find_erased lb (target (metadata a))) as Eb.
  rewrite Hfa in Ea. rewrite Hfb in Eb. rewrite Hl in Ea. simpl in Ea, Eb.
  congruence.
Qed.

(** X12: registering a batch in one [addMetadatas] call or its two halves in
    two consecutive calls gives the same registry but for the identities of
    the objects created: the same metadatas, at each position a broadcaster
    with the same class and subscriber array, and a pair with the same
    metadata whose repository is bound to a broadcaster with the same class
    and subscriber array. *)
Theorem one_batch_or_two_calls ms1 ms2 w :
  let wa := snd (addMetadatas (ms1 ++ ms2) w) in
  let wb := snd (addMetadatas ms2 (snd (addMetadatas ms1 w))) in
  _metadatas (this wa) = _metadatas (this wb) /\
  map erase_broadcaster (_broadcasters (this wa)) =
    map erase_broadcaster (_broadcasters (this wb)) /\
  map erase_pair (repositoryAndMetadatas (this wa)) =
    map erase_pair (repositoryAndMetadatas (this wb)) /\
  _subscribers (this wa) = _subscribers (this wb) /\
  _options (this wa) = _options (this wb) /\
  arrays wa = arrays wb /\ next_id wa = next_id wb /\ events wa = events wb.
Proof.
  intros wa wb. unfold wa, wb. clear wa wb.
  destruct (addMetadatas_spec (ms1 ++ ms2) w) as (ra & -> & Ha & _).
  destruct (addMetadatas_spec ms1 w) as (r1 & -> & H1 & _). cbn [snd].
  destruct (addMetadatas_spec ms2 (registered_state w ms1 r1))
    as (r2 & -> & H2 & _).
  simpl in *.
  assert (Hb : map erase_broadcaster
                 (_broadcasters (this w) ++
                  fresh_broadcasters (next_id w) (_subscribers (this w))
                    (ms1 ++ ms2)) =
               map erase_broadcaster
                 ((_broadcasters (this w) ++
                   fresh_broadcasters (next_id w) (_subscribers (this w)) ms1) ++
                  fresh_broadcasters (next_id w + length ms1 + length ms1)
                    (_subscribers (this w)) ms2)).
  { rewrite !map_app, !erase_fresh_broadcasters, map_app.
    now rewrite app_assoc. }
  split; [now rewrite app_assoc|]. split; [exact Hb|]. split.
  - rewrite <- app_assoc, !map_app. f_equal. rewrite <- map_app.
    eapply bound_pairs_erased; [exact Hb|exact Ha|].
    apply Forall2_app; [|exact H2].
    eapply Forall2_impl; [|exact H1]. intros m rm. apply bound_to_app.
  - repeat split. rewrite length_app. lia.
Qed.

(** ** One position for the three lookups *)

Lemma find_at_same_position A B (f : A -> nat) (g : B -> nat) e (l : list A) :
  forall (l' : list B) i x,
  map f l = map g l' ->
  nth_error l i = Some x -> f x = e ->
  (forall j y, j < i -> nth_error l j = Some y -> f y <> e) ->
  exists x', nth_error l' i = Some x' /\
             find (fun y => g y =? e) l' = Some x'.
Proof.
  induction l as [|a l IH]; intros [|a' l'] [|i] x Hmap Hi Hx Hlow;
    simpl in *; try discriminate.
  - injection Hi as <-. injection Hmap as Ha _. exists a'. split; [reflexivity|].
    rewrite <- Ha, Hx. now rewrite Nat.eqb_refl.
  - injection Hmap as Ha Hmap.
    destruct (IH l' i x Hmap Hi Hx) as (x' & Hx' & Hf).
    { intros j y Hj Hy. apply (Hlow (S j) y); [lia|exact Hy]. }
    exists x'. split; [exact Hx'|].
    assert (Hne : f a <> e) by (apply (Hlow 0 a); [lia|reflexivity]).
    rewrite <- Ha. apply Nat.eqb_neq in Hne. now rewrite Hne.
Qed.

(** X13: in a state reached through the public operations, for a class that
    is the target of a registered metadata, the three lookups resolve to one
    and the same position of the three sequences: the lowest position whose
    metadata has that target. [getMetadata] returns the metadata at that
    position, [getBroadcaster] the broadcaster at that position and
    [getRepository] the repository at that position. *)
Theorem lookups_resolve_to_one_position name ops e :
  In e (map target (registered ops)) ->
  let w := after name ops in
  exists i m b r,
    nth_error (_metadatas (this w)) i = Some m /\
    nth_error (_broadcasters (this w)) i = Some b /\
    nth_error (repositories (this w)) i = Some r /\
    target m = e /\
    (forall j m', j < i -> nth_error (_metadatas (this w)) j = Some m' ->
                  target m' <> e) /\
    fst (getMetadata e w) = Ok m /\
    fst (getBroadcaster e w) = Ok b /\
    fst (getRepository e w) = Ok r.
Proof.
  intros Hin w. pose proof (consistent_after name ops) as Hw. fold w in Hw.
  assert (Hreg : _metadatas (this w) = registered ops)
    by apply after_metadatas.
  rewrite <- Hreg in Hin.
  destruct (find (fun m => target m =? e) (_metadatas (this w))) as [m|] eqn:Em.
  2:{ apply find_target_none in Em. now elim Em. }
  pose proof Em as Hfirst. apply find_first_match in Hfirst.
  destruct Hfirst as (i & Hi & Hm & Hlow).
  apply Nat.eqb_eq in Hm.
  assert (Hlow' : forall j m', j < i ->
            nth_error (_metadatas (this w)) j = Some m' -> target m' <> e).
  { intros j m' Hj Hm'. apply Nat.eqb_neq. eapply Hlow; eauto. }
  destruct (@find_at_same_position _ _ target entityClass e
              (_metadatas (this w)) (_broadcasters (this w)) i m)
    as (b & Hb & Hfb); auto.
  { symmetry. apply (classes_mirror Hw). }
  destruct (@find_at_same_position _ _ target
              (fun rm => target (metadata rm)) e
              (_metadatas (this w)) (repositoryAndMetadatas (this w)) i m)
    as (rm & Hrm & Hfrm); auto.
  { rewrite <- (pairs_mirror Hw). now rewrite map_map. }
  exists i, m, b, (repository rm).
  split; [exact Hi|]. split; [exact Hb|]. split.
  { unfold repositories. now apply map_nth_error. }
  split; [exact Hm|]. split; [exact Hlow'|].
  rewrite getMetadata_eq, getBroadcaster_eq, (getRepository_first_pair e Hw).
  simpl. now rewrite Em, Hfb, Hfrm.
Qed.

End Registry.

(** * Examples on the sample entities *)

(** C1, the claim as stated fails: on a registry with no metadata,
    [getRepository(User)] throws [MetadataNotFoundError], not
    [RepositoryNotFoundError]. *)
Lemma getRepository_on_empty_registry :
  fst (getRepository sample_target User (new_Connection default)) =
    Throw (MetadataNotFoundError User) /\
  fst (getRepository sample_target User (new_Connection default)) <>
    Throw (RepositoryNotFoundError User).
Proof. split; [reflexivity|discriminate]. Qed.

(** [User] is never registered, [Post] is: the three lookups of [User]
    throw. *)
Lemma lookups_of_unregistered_class_witness :
  ~ In User (map sample_target (registered [OpAddMetadatas [postMetadata]])) /\
  let w := after sample_target default [OpAddMetadatas [postMetadata]] in
  getMetadata sample_target User w = (Throw (MetadataNotFoundError User), w) /\
  getBroadcaster User w = (Throw (BroadcasterNotFoundError User), w) /\
  getRepository sample_target User w = (Throw (MetadataNotFoundError User), w).
Proof.
  assert (H : ~ In User (map sample_target
                           (registered [OpAddMetadatas [postMetadata]]))).
  { simpl. intros [E|[]]. discriminate E. }
  split; [exact H|].
  exact (lookups_of_unregistered_class sample_target default
           [OpAddMetadatas [postMetadata]] User H).
Defined.

(** C2, the claim as stated fails: [S1] is registered before
    [addMetadatas([userMetadata'])], yet it is not in the subscriber view of
    the broadcaster [getBroadcaster(User)] returns, which is the one created
    by the earlier registration of [User]. *)
Lemma subscriber_before_second_registration_not_seen :
  let before := [OpAddMetadatas [userMetadata]; OpAddSubscribers [S1]] in
  let w := step sample_target (after sample_target default before)
                (OpAddMetadatas [userMetadata']) in
  sample_target userMetadata' = User /\
  In S1 (subscribed before) /\
  fst (getBroadcaster User w) = Ok (mkBroadcaster 0 0 User) /\
  ~ In S1 (subscribers_of w (mkBroadcaster 0 0 User)).
Proof.
  cbv zeta. repeat split.
  - now left.
  - intros [].
Qed.

(** The scenario of the specification: [S1] and [S2] are registered before
    [User]; [S3] and [Post] come later and leave the view of [User]'s
    broadcaster as it was. *)
Lemma broadcaster_view_is_frozen_witness :
  let before := [OpAddSubscribers [S1; S2]] in
  let later := [OpAddSubscribers [S3]; OpAddMetadatas [postMetadata]] in
  ~ In (sample_target userMetadata) (map sample_target (registered before)) /\
  let w := run sample_target later
             (step sample_target (after sample_target default before)
                   (OpAddMetadatas [userMetadata])) in
  exists b,
    getBroadcaster User w = (Ok b, w) /\
    bc_subscribers b < length (arrays w) /\
    subscribers_of w b = [S1; S2].
Proof.
  cbv zeta.
  assert (H : ~ In (sample_target userMetadata)
                (map sample_target (registered [OpAddSubscribers [S1; S2]]))).
  { simpl. intros []. }
  split; [exact H|].
  destruct (broadcaster_view_is_frozen sample_target default
              [OpAddSubscribers [S1; S2]] userMetadata
              [OpAddSubscribers [S3]; OpAddMetadatas [postMetadata]])
    as (b & _ & _ & Hvalid & Hview & Hget).
  exists b. split; [exact (Hget H)|]. split; [exact Hvalid|exact Hview].
Defined.

(** C3, the claim as stated fails: the repository made for [userMetadata'],
    whose target was already registered, is bound to the broadcaster of the
    first registration (identity 0), not to the broadcaster created for
    [userMetadata'] in the same call (identity 2). *)
Lemma repository_of_duplicate_bound_to_earlier_broadcaster :
  let w0 := after sample_target default [OpAddMetadatas [userMetadata]] in
  let w1 := snd (addMetadatas sample_target [userMetadata'] w0) in
  nth_error (_broadcasters (this w1)) 0 = Some (mkBroadcaster 0 0 User) /\
  nth_error (_broadcasters (this w1)) 1 = Some (mkBroadcaster 2 0 User) /\
  nth_error (repositoryAndMetadatas (this w1)) 1 =
    Some (mkRepoMeta (mkRepository 3 userMetadata' (mkBroadcaster 0 0 User))
                     userMetadata') /\
  mkBroadcaster 0 0 User <> mkBroadcaster 2 0 User.
Proof.
  cbv zeta. repeat split. discriminate.
Qed.

(** A batch of two metadatas with different targets on a new registry: the
    repository of the second is bound to the broadcaster created for it. *)
Lemma repository_bound_to_first_broadcaster_witness :
  let ms := [userMetadata; postMetadata] in
  nth_error ms 1 = Some postMetadata /\
  let w0 := after sample_target default [] in
  let w1 := snd (addMetadatas sample_target ms w0) in
  let n := length (_metadatas (this w0)) in
  exists rm b,
    nth_error (repositoryAndMetadatas (this w1)) (n + 1) = Some rm /\
    metadata rm = postMetadata /\
    repo_metadata (repository rm) = postMetadata /\
    nth_error (_broadcasters (this w1)) (n + 1) = Some b /\
    bc_id b = next_id w0 + 1 /\
    fst (getBroadcaster (sample_target postMetadata) w1) =
      Ok (repo_broadcaster (repository rm)) /\
    (repo_broadcaster (repository rm) = b <->
     ~ In (sample_target postMetadata)
          (map sample_target (_metadatas (this w0) ++ firstn 1 ms))).
Proof.
  cbv zeta. split; [reflexivity|].
  exact (repository_bound_to_first_broadcaster sample_target default []
           [userMetadata; postMetadata] 1 eq_refl).
Defined.

(** C4, the claim as stated fails: after [addMetadatas([userMetadata'])] on a
    registry where [User] is already registered, [getMetadata] of the target
    of [userMetadata'] returns [userMetadata], not [userMetadata']. *)
Lemma getMetadata_after_duplicate_registration :
  let w0 := after sample_target default [OpAddMetadatas [userMetadata]] in
  let w1 := snd (addMetadatas sample_target [userMetadata'] w0) in
  fst (getMetadata sample_target (sample_target userMetadata') w1) =
    Ok userMetadata /\
  fst (getMetadata sample_target (sample_target userMetadata') w1) <>
    Ok userMetadata'.
Proof.
  cbv zeta. split; [reflexivity|discriminate].
Qed.

(** [User] registered twice after [Post]: two pairs, and the repository of
    the first one is returned. *)
Lemma same_target_twice_first_wins_witness :
  sample_target userMetadata = sample_target userMetadata' /\
  let w0 := after sample_target default [OpAddMetadatas [postMetadata]] in
  let w2 := run sample_target
              [OpAddMetadatas [userMetadata]; OpAddMetadatas [userMetadata']]
              w0 in
  exists rm1 rm2,
    _metadatas (this w2) = _metadatas (this w0) ++ [userMetadata; userMetadata'] /\
    repositoryAndMetadatas (this w2) =
      repositoryAndMetadatas (this w0) ++ [rm1; rm2] /\
    metadata rm1 = userMetadata /\ metadata rm2 = userMetadata' /\
    repository rm1 <> repository rm2 /\
    getRepository sample_target (sample_target userMetadata') w2 =
      (Ok (repository
             (match find (fun rm => sample_target (metadata rm) =?
                                    sample_target userMetadata')
                         (repositoryAndMetadatas (this w0)) with
              | Some rm0 => rm0
              | None => rm1
              end)), w2).
Proof.
  split; [reflexivity|].
  exact (same_target_twice_first_wins sample_target default
           [OpAddMetadatas [postMetadata]] userMetadata userMetadata' eq_refl).
Defined.

(** [User] is registered: [getRepository(User)] returns. *)
Lemma getRepository_of_registered_class_witness :
  In User (map sample_target (registered [OpAddMetadatas [userMetadata]])) /\
  let w := after sample_target default [OpAddMetadatas [userMetadata]] in
  (exists r, getRepository sample_target User w = (Ok r, w)) /\
  forall e', fst (getRepository sample_target User w) <>
             Throw (RepositoryNotFoundError e').
Proof.
  assert (H : In User (map sample_target
                         (registered [OpAddMetadatas [userMetadata]]))).
  { simpl. left. reflexivity. }
  split; [exact H|].
  exact (getRepository_of_registered_class sample_target default
           [OpAddMetadatas [userMetadata]] User H).
Defined.

(** The ordering contract on a run: [User]'s broadcaster keeps [S1; S2] when
    [S3] is added, and [Post], registered afterwards, sees all three. *)
Example views_along_a_run :
  let w := after sample_target default
             [OpAddSubscribers [S1; S2]; OpAddMetadatas [userMetadata];
              OpAddSubscribers [S3]; OpAddMetadatas [postMetadata]] in
  option_map (subscribers_of w)
    (find (fun b => entityClass b =? User) (_broadcasters (this w))) =
    Some [S1; S2] /\
  option_map (subscribers_of w)
    (find (fun b => entityClass b =? Post) (_broadcasters (this w))) =
    Some [S1; S2; S3] /\
  subscribers w = [S1; S2; S3].
Proof. cbv zeta. repeat split. Qed.

(** [Post] is registered after two metadatas of [User]: the three lookups of
    [Post] resolve to one position. *)
Lemma lookups_resolve_to_one_position_witness :
  let ops := [OpAddMetadatas [userMetadata; userMetadata'];
              OpAddSubscribers [S1]; OpAddMetadatas [postMetadata]] in
  In Post (map sample_target (registered ops)) /\
  let w := after sample_target default ops in
  exists i m b r,
    nth_error (_metadatas (this w)) i = Some m /\
    nth_error (_broadcasters (this w)) i = Some b /\
    nth_error (repositories (this w)) i = Some r /\
    sample_target m = Post /\
    (forall j m', j < i -> nth_error (_metadatas (this w)) j = Some m' ->
                  sample_target m' <> Post) /\
    fst (getMetadata sample_target Post w) = Ok m /\
    fst (getBroadcaster Post w) = Ok b /\
    fst (getRepository sample_target Post w) = Ok r.
Proof.
  cbv zeta.
  assert (H : In Post (map sample_target
                (registered [OpAddMetadatas [userMetadata; userMetadata'];
                             OpAddSubscribers [S1];
                             OpAddMetadatas [postMetadata]]))).
  { simpl. right. right. left. reflexivity. }
  split; [exact H|].
  exact (lookups_resolve_to_one_position sample_target default
           [OpAddMetadatas [userMetadata; userMetadata'];
            OpAddSubscribers [S1]; OpAddMetadatas [postMetadata]] Post H).
Defined.
